(** * arxiv_tracker.cli: the incremental synchronisation controller

    A shallow embedding of the controller part of [run] in
    [src/arxiv_tracker/cli.py]: the windowed paginator (lines 208-249), the
    fallback fetch (251-257), the delivery guards (391-482), the snapshot
    stamp (46-55, 402-408) and the outcome-gated commit of the seen-set
    (484-500).

    Python values are modelled as follows.
    - [int] is [Z]; [str] is [string]; [None] for a missing dictionary key
      or a [None] value is [option]'s [None].  The character classes of the
      model (the patterns [\d] and [\s], [str.isspace], [str.lower]) are
      Python's on ASCII characters; Python's also take characters outside
      ASCII, and the statements that depend on a class are about ASCII
      strings ([is_ascii]).
    - a [set] of identifiers is a [gset string]; the files found on disk are
      a [gmap] from path to document, or a [gset] of paths, the path of a
      file being written as [pathlib] writes it ([Path.norm]).
    - a function that may raise returns an [outcome]. *)

From Stdlib Require Import ZArith Lia Ascii.
From stdpp Require Import gmap strings sorting.

Open Scope Z_scope.

(** ** Python outcomes and truthiness *)

Inductive outcome (A : Type) : Type :=
| Returned (a : A)
| Raised.
Arguments Returned {A} a.
Arguments Raised {A}.

(** [bool(s)] for a [str]: the empty string is falsy. *)
Definition str_truthy (s : string) : bool :=
  match s with
  | EmptyString => false
  | String _ _ => true
  end.

(** [bool(x)] for a value that is [None] or a [str] (what [it.get(k)]
    returns for the keys the controller reads). *)
Definition opt_truthy (o : option string) : bool :=
  match o with
  | None => false
  | Some s => str_truthy s
  end.

(** Every character of [s] is ASCII. *)
Fixpoint is_ascii (s : string) : bool :=
  match s with
  | EmptyString => true
  | String c rest => (nat_of_ascii c <? 128)%nat && is_ascii rest
  end.

(** ** Paths (pathlib on POSIX) *)

Module Path.

(** [s.split("/")]. *)
Fixpoint split_slash (s : string) : list string :=
  match s with
  | EmptyString => [EmptyString]
  | String c rest =>
      if Ascii.eqb c "/"%char then EmptyString :: split_slash rest
      else
        match split_slash rest with
        | piece :: pieces => String c piece :: pieces
        | [] => [String c EmptyString]
        end
  end.

(** The number of slashes at the head of [s]. *)
Fixpoint leading_slashes (s : string) : nat :=
  match s with
  | EmptyString => O
  | String c rest => if Ascii.eqb c "/"%char then S (leading_slashes rest) else O
  end.

(** The root of [PurePosixPath(s)]: one slash for an absolute path, two for
    a path that begins with exactly two. *)
Definition root (s : string) : string :=
  match leading_slashes s with
  | O => ""
  | 2%nat => "//"
  | _ => "/"
  end.

(** The components of [PurePosixPath(s)] after the root: the pieces between
    the slashes, without the empty ones and without the dots. *)
Definition is_part (piece : string) : bool :=
  negb (String.eqb piece "" || String.eqb piece ".").

Definition parts (s : string) : list string := List.filter is_part (split_slash s).

(** ["/".join(parts)]. *)
Fixpoint join (pieces : list string) : string :=
  match pieces with
  | [] => ""
  | [piece] => piece
  | piece :: rest => piece +:+ "/" +:+ join rest
  end.

(** [str] of the path with root [r] and components [pieces]. *)
Definition render (r : string) (pieces : list string) : string :=
  match pieces with
  | [] => if str_truthy r then r else "."
  | _ :: _ => r +:+ join pieces
  end.

(** [str(pathlib.Path(s))]. *)
Definition norm (s : string) : string := render (root s) (parts s).

(** [str(pathlib.Path(s) / name)]; an absolute [name] replaces [s]. *)
Definition div (s name : string) : string :=
  match leading_slashes name with
  | O => render (root s) (parts s ++ parts name)
  | S _ => norm name
  end.

(** Whether [s] can name a regular file for [os.path.exists] and [open]:
    not when it ends with a slash or with a component [.], which ask for a
    directory. *)
Definition names_file (s : string) : bool :=
  match last (split_slash s) with
  | Some piece => is_part piece
  | None => false
  end.

End Path.

(** ** Snapshot stamp (lines 46-55 and 402-408) *)

Module Stamp.

(** [os.path.basename] on POSIX: what follows the last slash. *)
Fixpoint basename_from (acc : string) (p : string) : string :=
  match p with
  | EmptyString => acc
  | String c rest =>
      if Ascii.eqb c "/"%char then basename_from rest rest
      else basename_from acc rest
  end.

Definition basename (p : string) : string := basename_from p p.

(** The pattern class [\d] on an ASCII character. *)
Definition is_digit (c : ascii) : bool :=
  let n := nat_of_ascii c in (48 <=? n)%nat && (n <=? 57)%nat.

(** [take_digits n s]: the next [n] characters of [s] when all of them are
    digits, with the rest of [s]. *)
Fixpoint take_digits (n : nat) (s : string) : option (string * string) :=
  match n with
  | O => Some (EmptyString, s)
  | S n' =>
      match s with
      | EmptyString => None
      | String c rest =>
          if is_digit c then
            match take_digits n' rest with
            | Some (d, r) => Some (String c d, r)
            | None => None
            end
          else None
      end
  end.

(** [strip_prefix p s]: [s] without its prefix [p], when it has it. *)
Fixpoint strip_prefix (p s : string) : option string :=
  match p with
  | EmptyString => Some s
  | String a p' =>
      match s with
      | EmptyString => None
      | String b s' => if Ascii.eqb a b then strip_prefix p' s' else None
      end
  end.

(** A match of [arxiv_(\d{8}_\d{6})] anchored at the head of [s]; the
    result is group 1. *)
Definition match_here (s : string) : option string :=
  match strip_prefix "arxiv_" s with
  | None => None
  | Some r0 =>
      match take_digits 8%nat r0 with
      | None => None
      | Some (d8, r1) =>
          match strip_prefix "_" r1 with
          | None => None
          | Some r2 =>
              match take_digits 6%nat r2 with
              | None => None
              | Some (d6, _) => Some (d8 +:+ "_" +:+ d6)
              end
          end
      end
  end.

(** [re.search(r"arxiv_(\d{8}_\d{6})", name)]: group 1 of the leftmost
    match. *)
Fixpoint re_search (s : string) : option string :=
  match match_here s with
  | Some g => Some g
  | None =>
      match s with
      | EmptyString => None
      | String _ rest => re_search rest
      end
  end.

(** [_extract_stamp_from_path].  [today] is [time.strftime("%Y%m%d")].
    The body of the [try] cannot raise on a [str], and the function catches
    whatever it raises, so the function always returns. *)
Definition _extract_stamp_from_path (today : string) (path : string)
  : outcome string :=
  match re_search (basename path) with
  | Some g => Returned g
  | None => Returned today
  end.

(** [os.path.splitext(b)[0]]: [b] up to its last dot, a leading run of dots
    not counting. *)
Fixpoint has_dot (s : string) : bool :=
  match s with
  | EmptyString => false
  | String c rest => Ascii.eqb c "."%char || has_dot rest
  end.

Fixpoint cut_last_dot (s : string) : string :=
  match s with
  | EmptyString => EmptyString
  | String c rest =>
      if Ascii.eqb c "."%char && negb (has_dot rest) then EmptyString
      else String c (cut_last_dot rest)
  end.

Fixpoint splitext_root (s : string) : string :=
  match s with
  | EmptyString => EmptyString
  | String c rest =>
      if Ascii.eqb c "."%char then String c (splitext_root rest)
      else if has_dot s then cut_last_dot s else s
  end.

(** [_fallback_stamp], local to [run]. *)
Definition _fallback_stamp (p : string) : string :=
  splitext_root (basename p).

(** The stamp as [run] computes it (lines 405-408):
    [try: stamp = _extract_stamp_from_path(json_path)]
    [except Exception: stamp = _fallback_stamp(json_path)]. *)
Definition run_stamp (today : string) (json_path : string) : string :=
  match _extract_stamp_from_path today json_path with
  | Returned s => s
  | Raised => _fallback_stamp json_path
  end.

(** Names for the statements about the stamp. *)

Fixpoint all_digits (s : string) : bool :=
  match s with
  | EmptyString => true
  | String c rest => is_digit c && all_digits rest
  end.

(** [s] begins with a token [arxiv_YYYYMMDD_HHMMSS] whose digits are [g]. *)
Definition token_at (s g : string) : Prop :=
  ∃ d8 d6 post,
    s = "arxiv_" +:+ d8 +:+ "_" +:+ d6 +:+ post
    ∧ String.length d8 = 8%nat ∧ all_digits d8 = true
    ∧ String.length d6 = 6%nat ∧ all_digits d6 = true
    ∧ g = d8 +:+ "_" +:+ d6.

(** [s] contains a token somewhere. *)
Definition has_token (s : string) : Prop :=
  ∃ pre rest g, s = pre +:+ rest ∧ token_at rest g.

(** The first token of [s] has the digits [g]: a token begins after [pre],
    and none begins before. *)
Definition first_token (s g : string) : Prop :=
  ∃ pre rest,
    s = pre +:+ rest ∧ token_at rest g
    ∧ ∀ pre' rest' g', s = pre' +:+ rest' → token_at rest' g' →
        (String.length pre ≤ String.length pre')%nat.

End Stamp.

(** ** Feed items and timestamps (lines 180-187, 228) *)

(** A feed item is the [dict] that [parse_feed] returns, read by the
    controller through [it.get(key)] only: [it !! key].  A key whose value is
    [None] is modelled as a missing key. *)
Abbreviation FeedItem := (gmap string string).

(** [s.replace("Z", "+00:00")]. *)
Fixpoint replace_Z (s : string) : string :=
  match s with
  | EmptyString => EmptyString
  | String c rest =>
      if Ascii.eqb c "Z"%char then "+00:00" +:+ replace_Z rest
      else String c (replace_Z rest)
  end.

Section Timestamps.

(** [datetime.fromisoformat(s).astimezone(timezone.utc)] of the Python
    library, as the instant in microseconds since the epoch; [None] when it
    raises. *)
Variable fromisoformat : string → option Z.

(** [_parse_dt], applied to the result of [it.get(key)]. *)
Definition _parse_dt (s : option string) : option Z :=
  match s with
  | None => None
  | Some s => if str_truthy s then fromisoformat (replace_Z s) else None
  end.

(** [t = _parse_dt(it.get("updated")) or _parse_dt(it.get("published"))];
    a [datetime] is always truthy. *)
Definition effective_time (it : FeedItem) : option Z :=
  match _parse_dt (it !! "updated") with
  | Some t => Some t
  | None => _parse_dt (it !! "published")
  end.

(** [cutoff and t and t < cutoff] (line 229). *)
Definition before_cutoff (cutoff : option Z) (it : FeedItem) : bool :=
  match cutoff with
  | None => false
  | Some c =>
      match effective_time it with
      | None => false
      | Some t => t <? c
      end
  end.

End Timestamps.

Definition MICROS_PER_DAY : Z := 86400000000.

(** [cutoff] (line 208) when the line does not raise; [now] is
    [datetime.now(timezone.utc)]. *)
Definition cutoff_of (now since_days : Z) : option Z :=
  if 0 <? since_days then Some (now - since_days * MICROS_PER_DAY) else None.

(** The largest number of days of a [timedelta], and [datetime.min] in
    microseconds since the epoch. *)
Definition MAX_DELTA_DAYS : Z := 999999999.
Definition MIN_DATETIME : Z := -62135596800000000.

(** Line 208 raises [OverflowError] when [timedelta] refuses the number of
    days, or when the difference is before [datetime.min]. *)
Definition cutoff_overflows (now since_days : Z) : bool :=
  (0 <? since_days)
  && ((MAX_DELTA_DAYS <? since_days)
      || (now - since_days * MICROS_PER_DAY <? MIN_DATETIME)).

(** [want_new = int(cfg.max_results or 50)] (line 209); [cfg.max_results] is
    [None] or an [int]. *)
Definition want_new_of (max_results : option Z) : Z :=
  match max_results with
  | None => 50
  | Some n => if n =? 0 then 50 else n
  end.

(** [page_size] (line 212) and [max_pages] (line 213). *)
Definition page_size_of (want_new : Z) : Z := Z.min 200 (Z.max 25 want_new).
Definition max_pages : nat := 20.

(** ** The seen-set store (lines 192-206) *)

(** What [json.load] finds in a state file, with string identifiers.
    [DocOther] stands for everything from which the loader gets the empty
    set: invalid JSON (the [except] branch), a scalar, [null]. *)
Inductive StateDoc : Type :=
| DocIds (ids : list string)    (* an object with an "ids" member *)
| DocKeys (keys : list string)  (* an object without one: its keys *)
| DocList (ids : list string)   (* a bare array *)
| DocOther.

Definition decode (d : StateDoc) : gset string :=
  match d with
  | DocIds ids => list_to_set ids
  | DocKeys keys => list_to_set keys
  | DocList ids => list_to_set ids
  | DocOther => ∅
  end.

(** The regular files under the state paths, each under the normal form
    of its path ([Path.norm]): a missing key is a missing file. *)
Abbreviation StateFiles := (gmap string StateDoc).

(** The identifiers that the loader finds in the file [path]. *)
Definition stored_ids (files : StateFiles) (path : string) : gset string :=
  match files !! path with
  | None => ∅
  | Some d => decode d
  end.

(** [seen_ids] as loaded at the start of [run] (lines 193-206).
    [os.path.exists(state_path)] and [open(state_path)] find a regular file
    only under a path that can name one; under any other the set stays
    empty, by the test of line 196 or by the [except] of line 205. *)
Definition load_seen (unique_only : bool) (state_path : string)
    (files : StateFiles) : gset string :=
  if unique_only && str_truthy state_path then
    if Path.names_file state_path then stored_ids files (Path.norm state_path)
    else ∅
  else ∅.

(** ** Windowed paginator (lines 214-249) *)

(** [len(xs) >= n] for a Python list and an [int]. *)
Definition len_ge {A} (xs : list A) (n : Z) : bool := n <=? Z.of_nat (length xs).

(** One request to the feed collaborators: [(start, max_results)]. *)
Abbreviation Request := (Z * Z)%type.

(** The variables of the outer loop, with the requests made so far. *)
Record PagState : Type := mkPag {
  collected : list FeedItem;
  reached_cutoff : bool;
  start : Z;
  calls : list Request
}.

(** How the loop ends: normally, or by an exception of a collaborator, which
    nothing in the loop catches. *)
Inductive PagEnd : Type :=
| Done (s : PagState)
| Aborted (s : PagState).

Definition pag_state (e : PagEnd) : PagState :=
  match e with
  | Done s => s
  | Aborted s => s
  end.

(** [aid = it.get("id")] when [aid] is truthy: a missing, [None] or empty
    [id] gives [None]. *)
Definition truthy_id (it : FeedItem) : option string :=
  match it !! "id" with
  | Some aid => if str_truthy aid then Some aid else None
  | None => None
  end.

Section Paginator.

Variable fromisoformat : string → option Z.

(** [parse_feed(fetch_arxiv_feed(q, start, max_results, ...)) or []] for the
    [k]-th request of the run; [Raised] when either collaborator raises. *)
Variable feed : nat → Z → Z → outcome (list FeedItem).

Variables (unique_only : bool) (seen_ids : gset string).
Variables (cutoff : option Z) (want_new : Z).

(** The dedup test of line 235: [unique_only and aid and aid in seen_ids]. *)
Definition is_seen (it : FeedItem) : bool :=
  unique_only &&
  match truthy_id it with
  | Some aid => bool_decide (aid ∈ seen_ids)
  | None => false
  end.

(** The inner [for it in page_items] (lines 226-240), on what is left of the
    page; the result is [(collected, reached_cutoff)]. *)
Fixpoint scan_page (collected : list FeedItem) (reached_cutoff : bool)
    (page : list FeedItem) : list FeedItem * bool :=
  match page with
  | [] => (collected, reached_cutoff)
  | it :: rest =>
      if before_cutoff fromisoformat cutoff it then (collected, true)
      else if is_seen it then scan_page collected reached_cutoff rest
      else
        let collected := collected ++ [it] in
        if len_ge collected want_new then (collected, reached_cutoff)
        else scan_page collected reached_cutoff rest
  end.

Definition page_size : Z := page_size_of want_new.

(** The request of lines 218-221 is recorded. *)
Definition log_call (s : PagState) : PagState :=
  mkPag (collected s) (reached_cutoff s) (start s)
        (calls s ++ [(start s, page_size)]).

(** The body of [for _page in range(max_pages)] once the page is there
    (lines 222-249): the new state, and whether the loop goes on. *)
Definition page_body (s : PagState) (page_items : list FeedItem)
  : PagState * bool :=
  match page_items with
  | [] => (s, false)
  | _ :: _ =>
      let '(c, r) := scan_page (collected s) (reached_cutoff s) page_items in
      let s := mkPag c r (start s) (calls s) in
      if len_ge c want_new || r then (s, false)
      else if Z.of_nat (length page_items) <? page_size then (s, false)
      else (mkPag c r (start s + page_size) (calls s), true)
  end.

(** The outer loop with [n] pages left in the range. *)
Fixpoint page_loop (n : nat) (s : PagState) : PagEnd :=
  match n with
  | O => Done s
  | S n' =>
      match feed (length (calls s)) (start s) page_size with
      | Raised => Aborted (log_call s)
      | Returned page_items =>
          let '(s', go_on) := page_body (log_call s) page_items in
          if go_on then page_loop n' s' else Done s'
      end
  end.

(** Names for the statements about the loops. *)

(** The quota is not reached yet: nothing collected, or fewer than
    [want_new]. *)
Definition below_quota (c : list FeedItem) : Prop :=
  c = [] ∨ Z.of_nat (length c) < want_new.

(** The tests of lines 242 and 245 after a page has been scanned. *)
Definition stops (c : list FeedItem) (r : bool) (page : list FeedItem) : bool :=
  len_ge c want_new || r || (Z.of_nat (length page) <? page_size).

(** [k] requests, one per page, [start] advancing by the page size. *)
Definition next_requests (from : Z) (k : nat) : list Request :=
  (λ i : nat, (from + Z.of_nat i * page_size, page_size)) <$> seq 0 k.

Definition paginate : PagEnd :=
  page_loop max_pages (mkPag [] false 0 []).

(** ** Fallback fetch (lines 251-257) *)

Variable fallback_when_empty : bool.

(** [items] (line 259) with all the requests of the run. *)
Definition fetch_items : outcome (list FeedItem * list Request) :=
  match paginate with
  | Aborted _ => Raised
  | Done s =>
      match collected s with
      | [] =>
          if fallback_when_empty then
            match feed (length (calls s)) 0 want_new with
            | Raised => Raised
            | Returned page => Returned (page, calls s ++ [(0, want_new)])
            end
          else Returned ([], calls s)
      | _ :: _ => Returned (collected s, calls s)
      end
  end.

End Paginator.

(** ** The world of a run: process guard, flag files, state files *)

Record World : Type := mkWorld {
  SENT_EMAIL : bool;            (* the module-level [_SENT_EMAIL] *)
  flag_files : gset string;     (* the flag files that exist, each by the
                                   normal form of its path *)
  state_files : StateFiles
}.

(** A new process over the same disk: the module is loaded again. *)
Definition new_process (w : World) : World :=
  mkWorld false (flag_files w) (state_files w).

(** What [run] reads from its options and configuration file (lines
    111-160), after the merges. *)
Record Config : Type := mkConfig {
  cfg_max_results : option Z;        (* [cfg.max_results] *)
  cfg_since_days : Z;
  cfg_unique_only : bool;
  cfg_state_path : string;
  cfg_fallback_when_empty : bool;
  cfg_email_enabled : bool;          (* [email_cfg["enabled"]] at line 393 *)
  cfg_out_dir : string;
  cfg_site_requested : bool          (* the test of line 362 *)
}.

(** What the mail stage meets between the guards and [_SENT_EMAIL = True]
    (lines 418-473). *)
Inductive Delivery : Type :=
| Incomplete      (* [not (to_list and sender and passwd)] *)
| SendRaises      (* building the message or [send_email] raises *)
| SendOk.

(** How the writing of the state file ends (lines 492-495). *)
Inductive StateWrite : Type :=
| WriteOk        (* the file holds the document *)
| WriteRefused   (* [mkdir] or [open] raises: the file is as it was *)
| WriteBroken.   (* [sorted] or [json.dump] raises, or the file cannot be
                    flushed: [open(p, "w")] has emptied the file, which
                    holds a fragment of the document, maybe none of it *)

(** The collaborators and the machine during one run. *)
Record Env : Type := mkEnv {
  env_feed : nat → Z → Z → outcome (list FeedItem);
  env_now : Z;                       (* [datetime.now(timezone.utc)] *)
  env_today : string;                (* [time.strftime("%Y%m%d")] *)
  env_render : outcome string;       (* lines 265-353: [json_path], or an
                                        exception that nothing catches; the
                                        enrichment leaves the [id] of an
                                        item as it is *)
  env_site_ok : bool;                (* the [try] of lines 358-379 runs to
                                        its end *)
  env_mkdir_ok : bool;               (* [flag_dir.mkdir] returns *)
  env_delivery : Delivery;
  env_touch_ok : bool;               (* [flag_path.touch] returns *)
  env_state_write : StateWrite
}.

(** What a run prints, as far as the controller is concerned. *)
Inductive Notice : Type :=
| NoNewItems
| Fetched (n : nat)
| SiteFailed
| ProcessGuardSkip
| FileGuardSkip (stamp : string)
| EmailIncomplete
| EmailSent
| EmailFailed
| StateUpdated (n : nat) (path : string)
| StateNotWritten
| StateSaveFailed.

(** ** Delivery guards (lines 391-482) *)

(** [flag_dir / f"email_sent_{stamp}.flag"] with
    [flag_dir = pathlib.Path(out_dir or "outputs")]. *)
Definition flag_path (out_dir stamp : string) : string :=
  Path.div (if str_truthy out_dir then out_dir else "outputs")
    ("email_sent_" +:+ stamp +:+ ".flag").

(** The mail stage: the world after it, [email_sent], and the notices. *)
Definition deliver (cfg : Config) (env : Env) (json_path : string) (w : World)
  : World * bool * list Notice :=
  if cfg_email_enabled cfg then
    (* process guard *)
    let '(enabled, out) :=
      if SENT_EMAIL w then (false, [ProcessGuardSkip]) else (true, []) in
    (* snapshot guard *)
    let stamp := Stamp.run_stamp (env_today env) json_path in
    if env_mkdir_ok env then
      let fp := flag_path (cfg_out_dir cfg) stamp in
      let '(enabled, out) :=
        if enabled && bool_decide (fp ∈ flag_files w)
        then (false, out ++ [FileGuardSkip stamp]) else (enabled, out) in
      if enabled then
        match env_delivery env with
        | Incomplete => (w, false, out ++ [EmailIncomplete])
        | SendRaises => (w, false, out ++ [EmailFailed])
        | SendOk =>
            let flags :=
              if env_touch_ok env then flag_files w ∪ {[fp]}
              else flag_files w in
            (mkWorld true flags (state_files w), true, out ++ [EmailSent])
        end
      else (w, false, out)
    else (w, false, out ++ [EmailFailed])
  else (w, false, []).

(** ** Outcome-gated commit (lines 484-500) *)

(** [all_seen] after the loop of lines 488-491. *)
Definition add_seen (all_seen : gset string) (it : FeedItem) : gset string :=
  match it !! "id" with
  | Some aid => if str_truthy aid then all_seen ∪ {[aid]} else all_seen
  | None => all_seen
  end.

Definition commit_ids (seen_ids : gset string) (items : list FeedItem)
  : gset string :=
  foldl add_seen seen_ids items.

(** The identifiers of the fetched items, as a set: every [id] that is
    there and not empty. *)
Definition item_ids (items : list FeedItem) : gset string :=
  list_to_set (omap truthy_id items).

(** The order of [sorted] on [str]. *)
Definition str_le (a b : string) : Prop := String.leb a b = true.

#[global] Instance str_le_dec a b : Decision (str_le a b).
Proof. unfold str_le. apply _. Defined.

(** [sorted(all_seen)]. *)
Definition sorted_ids (all_seen : gset string) : list string :=
  merge_sort str_le (elements all_seen).

Definition is_empty {A} (xs : list A) : bool :=
  match xs with
  | [] => true
  | _ :: _ => false
  end.

Definition commit (cfg : Config) (env : Env) (seen_ids : gset string)
    (items : list FeedItem) (site_generated email_sent : bool) (w : World)
  : World * list Notice :=
  if cfg_unique_only cfg && str_truthy (cfg_state_path cfg)
     && negb (is_empty items) && (site_generated || email_sent)
  then
    let all_seen := commit_ids seen_ids items in
    let p := Path.norm (cfg_state_path cfg) in
    match env_state_write env with
    | WriteOk =>
        (mkWorld (SENT_EMAIL w) (flag_files w)
           (<[p := DocIds (sorted_ids all_seen)]> (state_files w)),
         [StateUpdated (size all_seen) (cfg_state_path cfg)])
    | WriteRefused => (w, [StateSaveFailed])
    | WriteBroken =>
        (mkWorld (SENT_EMAIL w) (flag_files w) (<[p := DocOther]> (state_files w)),
         [StateSaveFailed])
    end
  else if cfg_unique_only cfg && negb (is_empty items)
  then (w, [StateNotWritten])
  else (w, []).

(** ** The run *)

Record Report : Type := mkReport {
  items : list FeedItem;
  requests : list Request;
  site_generated : bool;
  email_sent : bool;
  notices : list Notice
}.

Section Run.

Variable fromisoformat : string → option Z.

(** The values of lines 193-209 for a run. *)
Definition run_seen_ids (cfg : Config) (w : World) : gset string :=
  load_seen (cfg_unique_only cfg) (cfg_state_path cfg) (state_files w).

Definition run_cutoff (cfg : Config) (env : Env) : option Z :=
  cutoff_of (env_now env) (cfg_since_days cfg).

Definition run_want_new (cfg : Config) : Z := want_new_of (cfg_max_results cfg).

(** The paginator, and the paginator with the fallback, as [run] calls
    them. *)
Definition run_paginate (cfg : Config) (env : Env) (w : World) : PagEnd :=
  paginate fromisoformat (env_feed env) (cfg_unique_only cfg)
    (run_seen_ids cfg w) (run_cutoff cfg env) (run_want_new cfg).

Definition run_fetch (cfg : Config) (env : Env) (w : World)
  : outcome (list FeedItem * list Request) :=
  fetch_items fromisoformat (env_feed env) (cfg_unique_only cfg)
    (run_seen_ids cfg w) (run_cutoff cfg env) (run_want_new cfg)
    (cfg_fallback_when_empty cfg).

(** [run] from line 176 on.  [Raised] is the handler of lines 505-508: the
    process exits with status 1; [Returned] is exit status 0. *)
Definition run (cfg : Config) (env : Env) (w : World) : World * outcome Report :=
  if cutoff_overflows (env_now env) (cfg_since_days cfg) then (w, Raised)
  else
    match run_fetch cfg env w with
    | Raised => (w, Raised)
    | Returned (items, reqs) =>
        let out0 := if is_empty items then [NoNewItems] else [Fetched (length items)] in
        match env_render env with
        | Raised => (w, Raised)
        | Returned json_path =>
            let site_generated := cfg_site_requested cfg && env_site_ok env in
            let out1 := if env_site_ok env then [] else [SiteFailed] in
            let '(w1, email_sent, out2) := deliver cfg env json_path w in
            let '(w2, out3) :=
              commit cfg env (run_seen_ids cfg w) items site_generated email_sent w1 in
            (w2, Returned (mkReport items reqs site_generated email_sent
                             (out0 ++ out1 ++ out2 ++ out3)))
        end
    end.

End Run.

(** ** Sample data for the worked cases *)

Module Sample.

(** A table standing for [fromisoformat] on the timestamps used below
    (microseconds since the epoch). *)
Definition iso (s : string) : option Z :=
  if String.eqb s "2024-01-10T00:00:00+00:00" then Some 1704844800000000
  else if String.eqb s "2024-01-09T22:00:00+00:00" then Some 1704837600000000
  else if String.eqb s "2024-01-07T00:00:00+00:00" then Some 1704585600000000
  else if String.eqb s "2024-01-01T00:00:00+00:00" then Some 1704067200000000
  else None.

(** 2024-01-10T00:00:00Z. *)
Definition now : Z := 1704844800000000.

Definition item (aid updated : string) : FeedItem :=
  {[ "id" := aid; "updated" := updated ]}.

Definition a1 : FeedItem := item "a1" "2024-01-01T00:00:00Z".
Definition a2 : FeedItem := item "a2" "2024-01-01T00:00:00Z".
Definition a3 : FeedItem := item "a3" "2024-01-01T00:00:00Z".

(** Updated now, two hours ago and three days ago. *)
Definition n1 : FeedItem := item "n1" "2024-01-10T00:00:00Z".
Definition n2 : FeedItem := item "n2" "2024-01-09T22:00:00Z".
Definition n3 : FeedItem := item "n3" "2024-01-07T00:00:00Z".

(** An item without [id], and one whose [id] is empty. *)
Definition no_id : FeedItem :=
  {[ "title" := "untitled"; "updated" := "2024-01-10T00:00:00Z" ]}.
Definition empty_id : FeedItem := item "" "2024-01-10T00:00:00Z".

(** A feed that answers the [k]-th request of the run with the [k]-th page
    of a list, and with the empty page after the last. *)
Definition feed_of (pages : list (list FeedItem))
  : nat → Z → Z → outcome (list FeedItem) :=
  λ k _ _, Returned (nth k pages []).

(** A feed that answers every request with the same page. *)
Definition feed_always (page : list FeedItem)
  : nat → Z → Z → outcome (list FeedItem) :=
  λ _ _ _, Returned page.

Definition env_of (feed : nat → Z → Z → outcome (list FeedItem))
    (site_ok : bool) (delivery : Delivery) : Env :=
  {| env_feed := feed;
     env_now := now;
     env_today := "20240110";
     env_render := Returned "outputs/arxiv_20240110_000000.json";
     env_site_ok := site_ok;
     env_mkdir_ok := true;
     env_delivery := delivery;
     env_touch_ok := true;
     env_state_write := WriteOk |}.

Definition cfg_of (max_results : option Z) (since_days : Z)
    (fallback email site : bool) : Config :=
  {| cfg_max_results := max_results;
     cfg_since_days := since_days;
     cfg_unique_only := true;
     cfg_state_path := ".state/seen.json";
     cfg_fallback_when_empty := fallback;
     cfg_email_enabled := email;
     cfg_out_dir := "outputs";
     cfg_site_requested := site |}.

(** A fresh process over a disk with the given state document and no flag
    file. *)
Definition world_of (ids : list string) : World :=
  {| SENT_EMAIL := false;
     flag_files := ∅;
     state_files := {[ ".state/seen.json" := DocIds ids ]} |}.

(** The cases. *)

Definition json_path : string := "outputs/arxiv_20240110_000000.json".

(** Seen-set {a1, a2}, one page [a1, a2, a3], no cutoff, ten wanted, site
    generated, no mail. *)
Definition cfg_dedup : Config := cfg_of (Some 10) 0 false false true.
Definition env_dedup : Env := env_of (feed_of [[a1; a2; a3]]) true SendOk.
Definition world_dedup : World := world_of ["a1"; "a2"].

(** The same with the fallback on and a feed that has only [a1]. *)
Definition cfg_dedup_fallback : Config := cfg_of (Some 10) 0 true false true.
Definition env_only_a1 : Env := env_of (feed_always [a1]) true SendOk.
Definition world_a1 : World := world_of ["a1"].

(** Cutoff one day before now, one page with items updated now, two hours
    ago and three days ago. *)
Definition cfg_cutoff : Config := cfg_of (Some 10) 1 false false true.
Definition env_cutoff : Env := env_of (feed_of [[n1; n2; n3]]) true SendOk.
Definition world_empty : World := world_of [].

(** The same with the fallback on and a feed that has only [n3]. *)
Definition cfg_cutoff_fallback : Config := cfg_of (Some 10) 1 true false true.
Definition env_only_n3 : Env := env_of (feed_always [n3]) true SendOk.

(** Mail on, site off, the send succeeds. *)
Definition cfg_mail : Config := cfg_of (Some 10) 0 false true false.
Definition env_mail : Env := env_of (feed_of [[a3]]) true SendOk.

(** Neither the site nor the mail: the site is not asked for and mail is
    off. *)
Definition cfg_nothing : Config := cfg_of (Some 10) 0 false false false.

(** A feed of full pages of 25 copies of [a3], for ever. *)
Definition full_page : list FeedItem := replicate 25 a3.

(** An environment in which [flag_path.touch()] raises, and one in which
    the writing of the state file breaks after the file has been opened. *)
Definition no_touch (env : Env) : Env :=
  {| env_feed := env_feed env;
     env_now := env_now env;
     env_today := env_today env;
     env_render := env_render env;
     env_site_ok := env_site_ok env;
     env_mkdir_ok := env_mkdir_ok env;
     env_delivery := env_delivery env;
     env_touch_ok := false;
     env_state_write := env_state_write env |}.


(** An artifact whose name has two tokens. *)
Definition two_tokens : string :=
  "outputs/arxiv_20240110_000000_arxiv_20240111_235959.json".

End Sample.

(** ** Names for the statements about whole runs *)

(** The longest prefix of a list whose members satisfy [p]. *)
Fixpoint take_while {A} (p : A → bool) (l : list A) : list A :=
  match l with
  | [] => []
  | x :: l' => if p x then x :: take_while p l' else []
  end.

(** The page that a request got; none when the collaborator raised. *)
Definition page_of (o : outcome (list FeedItem)) : list FeedItem :=
  match o with
  | Returned page => page
  | Raised => []
  end.

(** The pages that the feed returned to the requests of a log, the first of
    which is the [k]-th request of the run. *)
Fixpoint responses (feed : nat → Z → Z → outcome (list FeedItem))
    (k : nat) (reqs : list Request) : list (list FeedItem) :=
  match reqs with
  | [] => []
  | (st, mx) :: reqs' => page_of (feed k st mx) :: responses feed (S k) reqs'
  end.

(** What the paginator is meant to select from the items it was given, in
    the order of the feed: the items before the first one that is older
    than the cutoff, without those that are seen, up to the quota (one item
    at least, the quota being tested after an item is taken). *)
Definition selection (fromisoformat : string → option Z) (unique_only : bool)
    (seen_ids : gset string) (cutoff : option Z) (want_new : Z)
    (all : list FeedItem) : list FeedItem :=
  take (Z.to_nat (Z.max 1 want_new))
    (filter (λ it, is_seen unique_only seen_ids it = false)
       (take_while (λ it, negb (before_cutoff fromisoformat cutoff it)) all)).

(** ** The mail switch (lines 139-153) *)

(** [email_cfg["enabled"]] as line 393 reads it: [raw] is the truth value
    of [email.enabled] in the configuration file ([None] when the key is
    missing), [cli] the flag [--email] ([None] when it is not given), and
    [no_email] the flag [--no-email]. *)
Definition email_enabled_of (raw cli : option bool) (no_email : bool) : bool :=
  let enabled := match cli with Some b => Some b | None => raw end in
  let enabled := if no_email then Some false else enabled in
  match enabled with
  | Some b => b
  | None => false   (* [setdefault("enabled", False)] *)
  end.

(** ** Runs one after the other *)

(** One invocation of [run]: in the process of the run before it, or in a
    new process over the same disk. *)
Record Step : Type := mkStep {
  step_restart : bool;
  step_cfg : Config;
  step_env : Env
}.

Definition enter (st : Step) (w : World) : World :=
  if step_restart st then new_process w else w.

Fixpoint run_seq (fromisoformat : string → option Z) (steps : list Step)
    (w : World) : World * list (outcome Report) :=
  match steps with
  | [] => (w, [])
  | st :: steps' =>
      let r := run fromisoformat (step_cfg st) (step_env st) (enter st w) in
      let rs := run_seq fromisoformat steps' r.1 in
      (rs.1, r.2 :: rs.2)
  end.

(** Whether a run sent the mail. *)
Definition sent (r : outcome Report) : bool :=
  match r with
  | Returned rep => email_sent rep
  | Raised => false
  end.

(** The flag file of the snapshot of a run, when the run gets as far as
    having an artifact. *)
Definition step_flag (st : Step) : option string :=
  match env_render (step_env st) with
  | Returned json_path =>
      Some (flag_path (cfg_out_dir (step_cfg st))
              (Stamp.run_stamp (env_today (step_env st)) json_path))
  | Raised => None
  end.

(** The runs of a sequence that sent the mail for the flag file [f]. *)
Fixpoint sends_for (f : string) (steps : list Step) (rs : list (outcome Report))
  : nat :=
  match steps, rs with
  | st :: steps', r :: rs' =>
      (if sent r && bool_decide (step_flag st = Some f) then 1 else 0)%nat
      + sends_for f steps' rs'
  | _, _ => 0%nat
  end.

(** The runs of a sequence that sent the mail. *)
Definition sends (rs : list (outcome Report)) : nat :=
  length (filter (λ r, sent r = true) rs).

(** ** Names for the statements about paths *)

(** Whether a slash occurs in [s]. *)
Fixpoint has_slash (s : string) : bool :=
  match s with
  | EmptyString => false
  | String c rest => Ascii.eqb c "/"%char || has_slash rest
  end.

(** ** Text: whitespace, case, trimming, splitting *)

Module Text.

(** [str.isspace] on an ASCII character; it is also the class [\s] of a
    [str] pattern: tab to carriage return, the four separators 28-31, and
    the space. *)
Definition is_space (c : ascii) : bool :=
  let n := nat_of_ascii c in
  ((9 <=? n)%nat && (n <=? 13)%nat) || ((28 <=? n)%nat && (n <=? 32)%nat).

(** [str.lower] on an ASCII character. *)
Definition lower_char (c : ascii) : ascii :=
  let n := nat_of_ascii c in
  if (65 <=? n)%nat && (n <=? 90)%nat then ascii_of_nat (n + 32) else c.

Fixpoint lower (s : string) : string :=
  match s with
  | EmptyString => EmptyString
  | String c rest => String (lower_char c) (lower rest)
  end.

(** [re.sub(r"\s+", "", s)]: every run of whitespace goes. *)
Fixpoint remove_spaces (s : string) : string :=
  match s with
  | EmptyString => EmptyString
  | String c rest =>
      if is_space c then remove_spaces rest else String c (remove_spaces rest)
  end.

(** [s.lstrip()], which is also what [\s*] takes at the head of [s]. *)
Fixpoint lstrip (s : string) : string :=
  match s with
  | EmptyString => EmptyString
  | String c rest => if is_space c then lstrip rest else s
  end.

(** [s.rstrip()]. *)
Fixpoint rstrip (s : string) : string :=
  match s with
  | EmptyString => EmptyString
  | String c rest =>
      match rstrip rest with
      | EmptyString => if is_space c then EmptyString else String c EmptyString
      | String c' rest' => String c (String c' rest')
      end
  end.

(** [s.strip()]. *)
Definition strip (s : string) : string := rstrip (lstrip s).

(** [re.split] on a class of single characters, as in [re.split(r"[;,]", s)]:
    [cur] is the piece being read. *)
Fixpoint char_split (p : ascii → bool) (cur : string) (s : string) : list string :=
  match s with
  | EmptyString => [cur]
  | String c rest =>
      if p c then cur :: char_split p EmptyString rest
      else char_split p (cur +:+ String c EmptyString) rest
  end.

(** [re.split] on a pattern that matches no empty string: [sep s] is what
    follows the match of the pattern at the head of [s], when there is one.
    The scan tries the pattern at each position from left to right, and
    goes on after a match; [n] bounds the number of steps. *)
Fixpoint re_split_from (sep : string → option string) (n : nat)
    (cur : string) (s : string) : list string :=
  match n with
  | O => [cur +:+ s]
  | S n' =>
      match sep s with
      | Some rest => cur :: re_split_from sep n' EmptyString rest
      | None =>
          match s with
          | EmptyString => [cur]
          | String c rest =>
              re_split_from sep n' (cur +:+ String c EmptyString) rest
          end
      end
  end.

(** One step for each character and one for the end are enough. *)
Definition re_split (sep : string → option string) (s : string) : list string :=
  re_split_from sep (S (String.length s)) EmptyString s.

Definition is_comma_semi (c : ascii) : bool :=
  Ascii.eqb c ","%char || Ascii.eqb c ";"%char.

(** The pattern [\s*,\s*|\s*;\s*] at the head of [s]: whitespace, a comma
    or a semicolon, whitespace; [\s*] takes all the whitespace there is,
    and giving some back would leave whitespace where the comma or the
    semicolon has to be. *)
Definition sep_keywords (s : string) : option string :=
  match lstrip s with
  | EmptyString => None
  | String c rest => if is_comma_semi c then Some (lstrip rest) else None
  end.

(** The pattern [\s*,\s*|\s*;\s*|/] at the head of [s]: the two
    alternatives above, then the slash alone. *)
Definition sep_categories (s : string) : option string :=
  match sep_keywords s with
  | Some rest => Some rest
  | None =>
      match s with
      | String c rest => if Ascii.eqb c "/"%char then Some rest else None
      | EmptyString => None
      end
  end.

(** Names for the statements. *)

(** No character of [s] is in the class [p]. *)
Fixpoint no_char (p : ascii → bool) (s : string) : bool :=
  match s with
  | EmptyString => true
  | String c rest => negb (p c) && no_char p rest
  end.

Definition head_space (s : string) : bool :=
  match s with
  | EmptyString => false
  | String c _ => is_space c
  end.

Fixpoint last_space (s : string) : bool :=
  match s with
  | EmptyString => false
  | String c EmptyString => is_space c
  | String _ rest => last_space rest
  end.

(** Neither the first nor the last character of [s] is whitespace. *)
Definition trimmed (s : string) : bool := negb (head_space s) && negb (last_space s).

Definition is_upper (c : ascii) : bool :=
  let n := nat_of_ascii c in (65 <=? n)%nat && (n <=? 90)%nat.

(** A comma, a semicolon or a slash. *)
Definition is_cat_sep (c : ascii) : bool := is_comma_semi c || Ascii.eqb c "/"%char.

(** Whitespace, a comma or a semicolon. *)
Definition is_blank (c : ascii) : bool := is_space c || is_comma_semi c.

End Text.

(** ** [_split_categories], [_split_keywords] (lines 17-34) *)

(** The loop of both functions: [values] is the tuple of the option, and
    [sep] the pattern. *)
Fixpoint split_values (sep : string → option string) (values : list string)
  : list string :=
  match values with
  | [] => []
  | v :: values' =>
      if str_truthy v then
        List.filter str_truthy (Text.re_split sep (Text.strip v))
          ++ split_values sep values'
      else split_values sep values'
  end.

Definition _split_categories (values : list string) : list string :=
  split_values Text.sep_categories values.

Definition _split_keywords (values : list string) : list string :=
  split_values Text.sep_keywords values.

(** ** Addresses (lines 58-70, 419-446) *)

(** [_norm_addr]; [s or ""] makes [None] the empty string. *)
Definition _norm_addr (s : option string) : string :=
  Text.lower (Text.remove_spaces (default "" s)).

(** The loop of the module-level [_dedup_addrs], with its set [seen]. *)
Fixpoint dedup_addrs_from (seen : gset string) (seq : list (option string))
  : list string :=
  match seq with
  | [] => []
  | x :: seq' =>
      let k := _norm_addr x in
      if str_truthy k && negb (bool_decide (k ∈ seen))
      then k :: dedup_addrs_from (seen ∪ {[k]}) seq'
      else dedup_addrs_from seen seq'
  end.

(** The module-level [_dedup_addrs] (lines 62-70). *)
Definition _dedup_addrs (seq : list (option string)) : list string :=
  dedup_addrs_from ∅ seq.

(** The [_dedup_addrs] that [run] calls at line 446.  The [def] of line 439
    makes the name local to [run], so that line 437 raises
    [UnboundLocalError], a [NameError], and the function of lines 439-445 is
    the one defined and called: it compares in lower case and keeps each
    address as it is written. *)
Fixpoint run_dedup_addrs_from (s : gset string) (lst : list string) : list string :=
  match lst with
  | [] => []
  | a :: lst' =>
      let a2 := Text.lower a in
      if bool_decide (a2 ∈ s) then run_dedup_addrs_from s lst'
      else a :: run_dedup_addrs_from (s ∪ {[a2]}) lst'
  end.

Definition run_dedup_addrs (lst : list string) : list string :=
  run_dedup_addrs_from ∅ lst.

(** [to_list] at line 420: [env_to] is [os.getenv("EMAIL_TO", "")] and
    [cfg_to] is [email_cfg.get("to") or []]. *)
Definition recipients (env_to : string) (cfg_to : list string) : list string :=
  if str_truthy env_to then
    List.filter str_truthy (Text.strip <$> Text.char_split Text.is_comma_semi "" env_to)
  else cfg_to.

(** [to_list] at line 446. *)
Definition run_to_list (env_to : string) (cfg_to : list string) : list string :=
  run_dedup_addrs (recipients env_to cfg_to).

(** ** More sample data *)

Module Sample2.
Import Sample.

(** An item whose [updated] is not a timestamp and that has no
    [published]. *)
Definition odd_time : FeedItem := item "u1" "yesterday".


(** A disk with the flag file of the snapshot of the day before. *)
Definition world_other_flag : World :=
  {| SENT_EMAIL := false;
     flag_files := {[ flag_path "outputs" "20240109_000000" ]};
     state_files := ∅ |}.

(** Two runs with mail on, in one process, and in two processes. *)
Definition two_runs_one_process : list Step :=
  [mkStep false cfg_mail env_mail; mkStep false cfg_mail env_mail].
Definition two_runs_two_processes : list Step :=
  [mkStep true cfg_mail env_mail; mkStep true cfg_mail env_mail].

Definition flag_today : string := flag_path "outputs" "20240110_000000".

Definition addresses : list string := ["A@x.org"; "a@X.org"; "b@y.org"].

(** Site and mail both asked for, and both stages fail. *)
Definition cfg_both : Config := cfg_of (Some 10) 0 false true true.
Definition env_failing : Env := env_of (feed_of [[a3]]) false SendRaises.

End Sample2.

(** * Properties *)

(** ** The inner and outer loops *)

Lemma stops_unfold want_new c r page :
  stops want_new c r page =
    len_ge c want_new || r || (Z.of_nat (length page) <? page_size want_new).
Proof. reflexivity. Qed.

Section PaginatorFacts.

Variable fromisoformat : string → option Z.
Variable feed : nat → Z → Z → outcome (list FeedItem).
Variables (unique_only : bool) (seen_ids : gset string).
Variables (cutoff : option Z) (want_new : Z).

Local Abbreviation scan := (scan_page fromisoformat unique_only seen_ids cutoff want_new).
Local Abbreviation body := (page_body fromisoformat unique_only seen_ids cutoff want_new).
Local Abbreviation loop := (page_loop fromisoformat feed unique_only seen_ids cutoff want_new).
Local Abbreviation stale := (before_cutoff fromisoformat cutoff).
Local Abbreviation seen := (is_seen unique_only seen_ids).
Local Abbreviation psize := (page_size want_new).
Local Abbreviation below_quota := (below_quota want_new).
Local Abbreviation stops := (stops want_new).
Local Abbreviation next_requests := (next_requests want_new).

Lemma page_size_range : 25 ≤ psize ≤ 200.
Proof. unfold page_size, page_size_of. lia. Qed.

Lemma len_ge_true {A} (xs : list A) n : len_ge xs n = true ↔ n ≤ Z.of_nat (length xs).
Proof. unfold len_ge. apply Z.leb_le. Qed.

Lemma len_ge_false {A} (xs : list A) n : len_ge xs n = false ↔ Z.of_nat (length xs) < n.
Proof. unfold len_ge. rewrite Z.leb_gt. reflexivity. Qed.

(** What is collected keeps every property that fresh, unseen items have. *)
Lemma scan_page_Forall (Q : FeedItem → Prop) page : ∀ c r,
  (∀ it, it ∈ page → stale it = false → seen it = false → Q it) →
  Forall Q c → Forall Q (scan c r page).1.
Proof.
  induction page as [|it rest IH]; intros c r HQ Hc; simpl; [done|].
  destruct (stale it) eqn:Hst; [done|].
  destruct (seen it) eqn:Hse.
  - apply IH; [|done]. intros x Hx. apply HQ. by right.
  - assert (Forall Q (c ++ [it])) as Hc'.
    { apply Forall_app. split; [done|]. constructor; [|done].
      apply HQ; [by left|done|done]. }
    destruct (len_ge (c ++ [it]) want_new); [done|].
    apply IH; [|done]. intros x Hx. apply HQ. by right.
Qed.

(** The scan only appends. *)
Lemma scan_page_prefix page : ∀ c r, c `prefix_of` (scan c r page).1.
Proof.
  induction page as [|it rest IH]; intros c r; simpl; [done|].
  destruct (stale it); [done|].
  destruct (seen it); [apply IH|].
  destruct (len_ge (c ++ [it]) want_new); simpl.
  - by apply prefix_app_r.
  - etrans; [|apply IH]. by apply prefix_app_r.
Qed.

(** The scan never lowers the cutoff mark. *)
Lemma scan_page_reached page : ∀ c, (scan c true page).2 = true.
Proof.
  induction page as [|it rest IH]; intros c; simpl; [done|].
  destruct (stale it); [done|].
  destruct (seen it); [apply IH|].
  destruct (len_ge (c ++ [it]) want_new); [done|apply IH].
Qed.

Lemma scan_page_quota page : ∀ c r,
  below_quota c → Z.of_nat (length (scan c r page).1) ≤ Z.max 1 want_new.
Proof.
  induction page as [|it rest IH]; intros c r Hc; simpl.
  - destruct Hc as [->|Hc]; simpl; lia.
  - destruct (stale it); simpl.
    { destruct Hc as [->|Hc]; simpl; lia. }
    destruct (seen it); [by apply IH|].
    destruct (len_ge (c ++ [it]) want_new) eqn:Hq; simpl.
    + rewrite length_app; simpl. destruct Hc as [->|Hc]; simpl; lia.
    + apply IH. right. by apply len_ge_false.
Qed.

(** The body of the outer loop in terms of the scan of the page. *)
Lemma page_body_eq s page :
  body s page =
    let c := (scan (collected s) (reached_cutoff s) page).1 in
    let r := (scan (collected s) (reached_cutoff s) page).2 in
    if is_empty page then (s, false)
    else if stops c r page then (mkPag c r (start s) (calls s), false)
    else (mkPag c r (start s + psize) (calls s), true).
Proof.
  unfold page_body, stops. destruct page as [|it rest]; [done|].
  cbn [is_empty].
  destruct (scan (collected s) (reached_cutoff s) (it :: rest)) as [c r].
  cbn [fst snd]. destruct (len_ge c want_new || r); [done|].
  cbn [orb]. by destruct (_ <? _).
Qed.

Lemma stops_empty c r : stops c r [] = true.
Proof.
  unfold stops. pose proof page_size_range as Hp.
  assert ((Z.of_nat (length (@nil FeedItem)) <? psize) = true) as ->.
  { apply Z.ltb_lt. simpl. lia. }
  apply orb_true_r.
Qed.

(** The loop goes on exactly when none of the three tests stops it. *)
Lemma page_body_go s page :
  (body s page).2 =
    negb (stops (scan (collected s) (reached_cutoff s) page).1
                (scan (collected s) (reached_cutoff s) page).2 page).
Proof.
  rewrite page_body_eq. cbn zeta. destruct page as [|it rest].
  - cbn [is_empty snd]. cbn [scan_page fst snd]. by rewrite stops_empty.
  - cbn [is_empty]. by destruct (stops _ _ _).
Qed.

Lemma page_body_calls s page : calls (body s page).1 = calls s.
Proof.
  rewrite page_body_eq. cbn zeta.
  destruct (is_empty page); [done|]. by destruct (stops _ _ _).
Qed.

Lemma page_body_start s page :
  start (body s page).1 = if (body s page).2 then start s + psize else start s.
Proof.
  rewrite page_body_eq. cbn zeta.
  destruct (is_empty page); [done|]. by destruct (stops _ _ _).
Qed.

Lemma page_body_collected s page :
  collected (body s page).1 = (scan (collected s) (reached_cutoff s) page).1.
Proof.
  rewrite page_body_eq. cbn zeta. destruct page as [|it rest]; [done|].
  cbn [is_empty]. by destruct (stops _ _ _).
Qed.

Lemma page_body_reached s page :
  reached_cutoff (body s page).1 = (scan (collected s) (reached_cutoff s) page).2.
Proof.
  rewrite page_body_eq. cbn zeta. destruct page as [|it rest]; [done|].
  cbn [is_empty]. by destruct (stops _ _ _).
Qed.

(** One unfolding of the outer loop. *)
Lemma page_loop_S n s :
  loop (S n) s =
    match feed (length (calls s)) (start s) psize with
    | Raised => Aborted (log_call want_new s)
    | Returned page =>
        if (body (log_call want_new s) page).2
        then loop n (body (log_call want_new s) page).1
        else Done (body (log_call want_new s) page).1
    end.
Proof.
  simpl. destruct (feed _ _ _) as [page|]; [|done].
  by destruct (body _ page) as [s' go].
Qed.

(** An invariant [I] of the states in which the loop goes on gives [F] of
    the state in which it ends. *)
Lemma page_loop_inv (I F : PagState → Prop) :
  (∀ s, I s → F s) →
  (∀ s, I s → F (log_call want_new s)) →
  (∀ s page, I s →
     if (body (log_call want_new s) page).2
     then I (body (log_call want_new s) page).1
     else F (body (log_call want_new s) page).1) →
  ∀ n s, I s → F (pag_state (loop n s)).
Proof.
  intros H0 Hab Hbody n. induction n as [|n IH]; intros s Hs.
  - by apply H0.
  - rewrite page_loop_S. destruct (feed _ _ _) as [page|].
    + specialize (Hbody s page Hs).
      destruct (body (log_call want_new s) page).2; simpl; auto.
    + by apply Hab.
Qed.

Lemma next_requests_S from k :
  next_requests from (S k) = (from, psize) :: next_requests (from + psize) k.
Proof.
  unfold next_requests. cbn [seq fmap list_fmap]. f_equal.
  - f_equal. lia.
  - rewrite <- fmap_S_seq, <- list_fmap_compose. apply list_fmap_ext.
    intros _ i _. simpl. f_equal. lia.
Qed.

Lemma page_loop_calls n : ∀ s,
  ∃ k : nat, (k ≤ n)%nat ∧ (n ≠ 0%nat → (1 ≤ k)%nat) ∧
    calls (pag_state (loop n s)) = calls s ++ next_requests (start s) k.
Proof.
  induction n as [|n IH]; intros s.
  - exists 0%nat. simpl. rewrite app_nil_r. split; [lia|done].
  - rewrite page_loop_S. destruct (feed _ _ _) as [page|].
    + pose proof (page_body_calls (log_call want_new s) page) as Hc.
      pose proof (page_body_start (log_call want_new s) page) as Hs.
      destruct (body (log_call want_new s) page).2.
      * destruct (IH (body (log_call want_new s) page).1) as (k & Hk & _ & ->).
        exists (S k). split; [lia|]. split; [lia|].
        rewrite Hc, Hs, next_requests_S. simpl. by rewrite <- app_assoc.
      * exists 1%nat. split; [lia|]. split; [lia|].
        simpl. rewrite Hc. simpl. by rewrite next_requests_S.
    + exists 1%nat. split; [lia|]. split; [lia|].
      simpl. by rewrite next_requests_S.
Qed.

Local Abbreviation pag := (paginate fromisoformat feed unique_only seen_ids cutoff want_new).

Lemma paginate_Forall (Q : FeedItem → Prop) :
  (∀ it, stale it = false → seen it = false → Q it) →
  Forall Q (collected (pag_state pag)).
Proof.
  intros HQ. unfold paginate.
  apply (page_loop_inv (λ s, Forall Q (collected s)) (λ s, Forall Q (collected s)));
    [done|done| |by constructor].
  intros s page Hs.
  assert (Forall Q (collected (body (log_call want_new s) page).1)) as H.
  { rewrite page_body_collected. apply scan_page_Forall; [|done].
    intros it _. apply HQ. }
  by destruct (body _ page).2.
Qed.

Lemma paginate_quota :
  Z.of_nat (length (collected (pag_state pag))) ≤ Z.max 1 want_new.
Proof.
  unfold paginate.
  apply (page_loop_inv (λ s, below_quota (collected s))
           (λ s, Z.of_nat (length (collected s)) ≤ Z.max 1 want_new)).
  - intros s [->|H]; simpl; lia.
  - intros s [H|H]; simpl; [rewrite H; simpl|]; lia.
  - intros s page Hs. pose proof (page_body_go (log_call want_new s) page) as Hgo.
    destruct (body (log_call want_new s) page).2.
    + right. rewrite page_body_collected. apply len_ge_false.
      symmetry in Hgo. apply negb_true_iff in Hgo. unfold stops in Hgo.
      apply orb_false_iff in Hgo as [Hgo _]. by apply orb_false_iff in Hgo as [Hgo _].
    + rewrite page_body_collected. by apply scan_page_quota.
  - by left.
Qed.

(** After a page: the loop ends there when one of the three tests holds,
    and asks for the next page otherwise. *)
Lemma page_loop_step n s page :
  feed (length (calls s)) (start s) psize = Returned page →
  let c := (scan (collected s) (reached_cutoff s) page).1 in
  let r := (scan (collected s) (reached_cutoff s) page).2 in
  (want_new ≤ Z.of_nat (length c) ∨ r = true ∨ Z.of_nat (length page) < psize →
     ∃ s', loop (S n) s = Done s' ∧ collected s' = c ∧ reached_cutoff s' = r
           ∧ calls s' = calls s ++ [(start s, psize)])
  ∧ (¬ (want_new ≤ Z.of_nat (length c) ∨ r = true ∨ Z.of_nat (length page) < psize) →
     loop (S n) s = loop n (mkPag c r (start s + psize) (calls s ++ [(start s, psize)]))).
Proof.
  intros Hfeed c r.
  assert (stops c r page = true ↔
          want_new ≤ Z.of_nat (length c) ∨ r = true ∨ Z.of_nat (length page) < psize)
    as Hstops.
  { rewrite stops_unfold, !orb_true_iff, len_ge_true, Z.ltb_lt. tauto. }
  pose proof (page_body_go (log_call want_new s) page) as Hgo.
  pose proof (page_body_collected (log_call want_new s) page) as Hcol.
  pose proof (page_body_reached (log_call want_new s) page) as Hrea.
  pose proof (page_body_calls (log_call want_new s) page) as Hcal.
  pose proof (page_body_start (log_call want_new s) page) as Hsta.
  cbn [log_call collected reached_cutoff calls start] in Hgo, Hcol, Hrea, Hcal, Hsta.
  fold c in Hgo, Hcol. fold r in Hgo, Hrea.
  rewrite page_loop_S, Hfeed. split.
  - intros Hstop. apply Hstops in Hstop. rewrite Hstop in Hgo. simpl in Hgo.
    rewrite Hgo. eexists. split; [done|]. by rewrite Hcol, Hrea, Hcal.
  - intros Hgoes.
    destruct (stops c r page) eqn:Hst; [exfalso; apply Hgoes; by apply Hstops|].
    simpl in Hgo. rewrite Hgo in *. f_equal.
    destruct (body (log_call want_new s) page).1 as [c' r' st' cl']. simpl in *.
    by subst.
Qed.

(** C7. Bounded pagination: the loop makes between one and [max_pages] = 20
    requests, the [i]-th for [page_size] items from [start = i * page_size];
    whenever the page just scanned fills the quota, meets the cutoff or is
    shorter than [page_size], that request is the last one, and otherwise
    the loop goes on; a first page shorter than [page_size], the empty page
    included, ends the loop after one request whatever [want_new] is. *)
Theorem bounded_pagination :
  max_pages = 20%nat
  ∧ (∃ k : nat, (1 ≤ k ≤ max_pages)%nat ∧
       calls (pag_state pag) = (λ i : nat, (Z.of_nat i * psize, psize)) <$> seq 0 k)
  ∧ (∀ n s page,
       feed (length (calls s)) (start s) psize = Returned page →
       let c := (scan (collected s) (reached_cutoff s) page).1 in
       let r := (scan (collected s) (reached_cutoff s) page).2 in
       (want_new ≤ Z.of_nat (length c) ∨ r = true ∨ Z.of_nat (length page) < psize →
          ∃ s', loop (S n) s = Done s' ∧ collected s' = c ∧ reached_cutoff s' = r
                ∧ calls s' = calls s ++ [(start s, psize)])
       ∧ (¬ (want_new ≤ Z.of_nat (length c) ∨ r = true ∨ Z.of_nat (length page) < psize) →
          loop (S n) s = loop n (mkPag c r (start s + psize) (calls s ++ [(start s, psize)]))))
  ∧ (∀ page, feed 0%nat 0 psize = Returned page →
       Z.of_nat (length page) < psize →
       ∃ s', pag = Done s' ∧ calls s' = [(0, psize)]).
Proof.
  split; [done|]. split; [|split].
  - destruct (page_loop_calls max_pages (mkPag [] false 0 [])) as (k & Hk & Hk1 & Hc).
    exists k. split; [split; [by apply Hk1|done]|].
    unfold paginate. rewrite Hc. simpl. unfold next_requests.
    apply list_fmap_ext. intros _ i _. f_equal.
  - intros n s page Hfeed. by apply page_loop_step.
  - intros page Hfeed Hshort.
    pose proof (page_body_go (log_call want_new (mkPag [] false 0 [])) page) as Hgo.
    pose proof (page_body_calls (log_call want_new (mkPag [] false 0 [])) page) as Hcal.
    unfold paginate. change max_pages with (S 19). rewrite page_loop_S.
    cbn [calls start length]. rewrite Hfeed.
    unfold stops in Hgo. apply Z.ltb_lt in Hshort. rewrite Hshort, orb_true_r in Hgo.
    simpl in Hgo. rewrite Hgo. eexists. split; [done|]. by rewrite Hcal.
Qed.

(** What the paginator keeps is neither stale nor seen. *)
Lemma paginate_fresh it :
  it ∈ collected (pag_state pag) → stale it = false ∧ seen it = false.
Proof.
  revert it. apply Forall_forall.
  by apply (paginate_Forall (λ it, stale it = false ∧ seen it = false)).
Qed.

Lemma is_seen_true it aid :
  unique_only = true → it !! "id" = Some aid → aid ≠ "" → aid ∈ seen_ids →
  seen it = true.
Proof.
  intros -> Hid Hne Hin. unfold is_seen, truthy_id. rewrite Hid.
  destruct aid as [|a aid]; [done|]. simpl. by apply bool_decide_eq_true.
Qed.

Lemma before_cutoff_true c it t :
  cutoff = Some c → effective_time fromisoformat it = Some t → t < c →
  stale it = true.
Proof.
  intros -> Ht Hlt. unfold before_cutoff. rewrite Ht. by apply Z.ltb_lt.
Qed.

Lemma scan_page_stale c r it rest :
  stale it = true → scan c r (it :: rest) = (c, true).
Proof. intros H. simpl. by rewrite H. Qed.

Local Abbreviation fetch := (fetch_items fromisoformat feed unique_only seen_ids cutoff want_new).

(** Without the fallback, or with something collected, the items of the
    run are the paginator's. *)
Lemma fetch_items_paginated fb its reqs :
  fetch fb = Returned (its, reqs) →
  fb = false ∨ collected (pag_state pag) ≠ [] →
  its = collected (pag_state pag) ∧ reqs = calls (pag_state pag).
Proof.
  unfold fetch_items. destruct pag as [s|s]; [|done]. simpl.
  destruct (collected s) as [|x c] eqn:Hc.
  - intros H [->|?]; [|done]. by inversion H.
  - intros H _. by inversion H.
Qed.

(** C8. Fallback fetch: the run makes one request more than the paginator,
    for [want_new] items from [start = 0], exactly when the paginator
    collected nothing and the fallback flag is set; the items of the run are
    then the parsed page of that request as it is, whatever the seen-set and
    the cutoff are, and the run has items as soon as that page has; in every
    other case no request is added and the items are the paginator's, so
    that an empty result stays empty when the flag is off. *)
Theorem fallback_fetch (fb : bool) (s : PagState) :
  pag = Done s →
  (collected s = [] ∧ fb = true →
     match feed (length (calls s)) 0 want_new with
     | Returned page => fetch fb = Returned (page, calls s ++ [(0, want_new)])
     | Raised => fetch fb = Raised
     end)
  ∧ (¬ (collected s = [] ∧ fb = true) →
     fetch fb = Returned (collected s, calls s))
  ∧ (fb = false → collected s = [] → fetch fb = Returned ([], calls s))
  ∧ (∀ its reqs, fetch fb = Returned (its, reqs) →
       (reqs = calls s ++ [(0, want_new)] ↔ collected s = [] ∧ fb = true)
       ∧ (reqs = calls s ↔ ¬ (collected s = [] ∧ fb = true))).
Proof.
  intros Hpag. unfold fetch_items. rewrite Hpag.
  assert (∀ l : list Request, l ++ [(0, want_new)] ≠ l) as Hneq.
  { intros l H. apply (f_equal length) in H. rewrite length_app in H.
    simpl in H. lia. }
  destruct (collected s) as [|x c] eqn:Hc; destruct fb.
  - split; [|split; [|split]].
    + intros _. by destruct (feed _ _ _).
    + intros H. exfalso. by apply H.
    + done.
    + intros its reqs H. destruct (feed _ _ _) as [page|]; [|done].
      inversion H; subst. split; split; try done.
      * intros H'. by apply Hneq in H'.
      * intros H'. exfalso. by apply H'.
  - split; [|split; [|split]].
    + by intros [_ ?].
    + done.
    + done.
    + intros its reqs H. inversion H; subst. split; split; try done.
      * intros H'. symmetry in H'. by apply Hneq in H'.
      * by intros [_ ?].
      * by intros _ [_ ?].
  - split; [|split; [|split]].
    + by intros [? _].
    + done.
    + done.
    + intros its reqs H. inversion H; subst. split; split; try done.
      * intros H'. symmetry in H'. by apply Hneq in H'.
      * by intros [? _].
      * by intros _ [? _].
  - split; [|split; [|split]].
    + by intros [? _].
    + done.
    + done.
    + intros its reqs H. inversion H; subst. split; split; try done.
      * intros H'. symmetry in H'. by apply Hneq in H'.
      * by intros [? _].
      * by intros _ [? _].
Qed.

End PaginatorFacts.

(** C3 (as amended). Quota bound: for a [max_results] that is not set or
    not negative, the target [want_new] is at least one (50 when
    [max_results] is not set or zero) and, whatever pages the collaborators
    return, the paginator accumulates at most [want_new] items. *)
Theorem quota_bound fromisoformat feed unique_only seen_ids cutoff
    (max_results : option Z) :
  (∀ n, max_results = Some n → 0 ≤ n) →
  1 ≤ want_new_of max_results
  ∧ Z.of_nat (length (collected (pag_state
       (paginate fromisoformat feed unique_only seen_ids cutoff
          (want_new_of max_results)))))
    ≤ want_new_of max_results.
Proof.
  intros Hmr.
  assert (1 ≤ want_new_of max_results) as Hwant.
  { unfold want_new_of. destruct max_results as [n|]; [|lia].
    specialize (Hmr n eq_refl). destruct (Z.eqb_spec n 0); lia. }
  split; [done|].
  pose proof (paginate_quota fromisoformat feed unique_only seen_ids cutoff
                (want_new_of max_results)).
  lia.
Qed.

(** ** The seen-set and the commit *)

Lemma commit_ids_spec items : ∀ seen_ids,
  commit_ids seen_ids items = seen_ids ∪ item_ids items.
Proof.
  unfold commit_ids, item_ids.
  induction items as [|it items IH]; intros seen_ids; simpl.
  - set_solver.
  - rewrite IH. unfold add_seen, truthy_id.
    destruct (it !! "id") as [aid|]; [|done].
    destruct (str_truthy aid); [|done]. simpl. set_solver.
Qed.

Lemma list_to_set_sorted_ids (X : gset string) :
  list_to_set (sorted_ids X) = X.
Proof.
  apply set_eq. intros x. rewrite elem_of_list_to_set. unfold sorted_ids.
  rewrite (merge_sort_Permutation str_le (elements X)).
  apply elem_of_elements.
Qed.

#[global] Instance str_le_total : Total str_le.
Proof. intros a b. apply String.leb_total. Qed.

(** The written list is in the order of [sorted], without repetitions. *)
Lemma sorted_ids_sorted (X : gset string) :
  Sorted str_le (sorted_ids X) ∧ NoDup (sorted_ids X).
Proof.
  split.
  - apply (Sorted_merge_sort str_le).
  - unfold sorted_ids. rewrite (merge_sort_Permutation str_le (elements X)).
    apply NoDup_elements.
Qed.

Lemma deliver_state_files cfg env jp w :
  state_files (deliver cfg env jp w).1.1 = state_files w.
Proof.
  unfold deliver. destruct (cfg_email_enabled cfg); [|done].
  destruct (SENT_EMAIL w); destruct (env_mkdir_ok env); simpl; try done.
  destruct (bool_decide _); simpl; [done|].
  by destruct (env_delivery env), (env_touch_ok env).
Qed.

Lemma commit_flags cfg env seen_ids its sg es w :
  flag_files (commit cfg env seen_ids its sg es w).1 = flag_files w
  ∧ SENT_EMAIL (commit cfg env seen_ids its sg es w).1 = SENT_EMAIL w.
Proof.
  unfold commit.
  destruct (_ && _ && _ && _); [by destruct (env_state_write env)|].
  by destruct (_ && _).
Qed.

(** The commit leaves the state files alone, or writes the sorted union
    under the state path, or leaves a fragment there. *)
Lemma commit_state_files cfg env seen_ids its sg es w :
  state_files (commit cfg env seen_ids its sg es w).1 =
    if cfg_unique_only cfg && str_truthy (cfg_state_path cfg)
       && negb (is_empty its) && (sg || es)
    then
      match env_state_write env with
      | WriteOk =>
          <[Path.norm (cfg_state_path cfg) :=
              DocIds (sorted_ids (commit_ids seen_ids its))]> (state_files w)
      | WriteRefused => state_files w
      | WriteBroken => <[Path.norm (cfg_state_path cfg) := DocOther]> (state_files w)
      end
    else state_files w.
Proof.
  unfold commit.
  destruct (_ && _ && _ && _); simpl.
  - by destruct (env_state_write env).
  - by destruct (_ && _).
Qed.

Lemma stored_ids_insert files path ids :
  stored_ids (<[path := DocIds ids]> files) path = list_to_set ids.
Proof. unfold stored_ids. by rewrite lookup_insert_eq. Qed.

Lemma stored_ids_insert_ne files path path' d :
  path ≠ path' → stored_ids (<[path := d]> files) path' = stored_ids files path'.
Proof. intros H. unfold stored_ids. by rewrite lookup_insert_ne. Qed.

(** ** The run *)

Lemma run_unfold fromisoformat cfg env w :
  run fromisoformat cfg env w =
    if cutoff_overflows (env_now env) (cfg_since_days cfg) then (w, Raised)
    else
      match run_fetch fromisoformat cfg env w with
      | Raised => (w, Raised)
      | Returned (its, reqs) =>
          match env_render env with
          | Raised => (w, Raised)
          | Returned jp =>
              let sg := cfg_site_requested cfg && env_site_ok env in
              let d := deliver cfg env jp w in
              let c := commit cfg env (run_seen_ids cfg w) its sg d.1.2 d.1.1 in
              (c.1, Returned (mkReport its reqs sg d.1.2
                       ((if is_empty its then [NoNewItems] else [Fetched (length its)])
                        ++ (if env_site_ok env then [] else [SiteFailed])
                        ++ d.2 ++ c.2)))
          end
      end.
Proof.
  unfold run. destruct (cutoff_overflows _ _); [done|].
  destruct (run_fetch fromisoformat cfg env w) as [[its reqs]|]; [|done].
  destruct (env_render env) as [jp|]; [|done].
  destruct (deliver cfg env jp w) as [[w1 es] out2]. simpl.
  by destruct (commit cfg env (run_seen_ids cfg w) its _ es w1) as [w2 out3].
Qed.

Section RunFacts.

Variable fromisoformat : string → option Z.

Local Abbreviation run := (run fromisoformat).
Local Abbreviation run_fetch := (run_fetch fromisoformat).
Local Abbreviation run_paginate := (run_paginate fromisoformat).

(** A run that ends normally, stage by stage. *)
Lemma run_returned cfg env w rep :
  (run cfg env w).2 = Returned rep →
  ∃ jp,
    run_fetch cfg env w = Returned (items rep, requests rep)
    ∧ env_render env = Returned jp
    ∧ site_generated rep = cfg_site_requested cfg && env_site_ok env
    ∧ email_sent rep = (deliver cfg env jp w).1.2
    ∧ (run cfg env w).1 =
        (commit cfg env (run_seen_ids cfg w) (items rep) (site_generated rep)
           (email_sent rep) (deliver cfg env jp w).1.1).1
    ∧ ∃ out0 out1,
        notices rep = out0 ++ out1 ++ (deliver cfg env jp w).2 ++
          (commit cfg env (run_seen_ids cfg w) (items rep) (site_generated rep)
             (email_sent rep) (deliver cfg env jp w).1.1).2.
Proof.
  rewrite run_unfold. destruct (cutoff_overflows _ _); [done|].
  destruct (run_fetch cfg env w) as [[its reqs]|]; [|done].
  destruct (env_render env) as [jp|]; [|done].
  cbn zeta. simpl. intros [= <-]. simpl. exists jp. eauto 10.
Qed.

(** A run that ends normally has computed its cutoff. *)
Lemma run_returned_cutoff cfg env w rep :
  (run cfg env w).2 = Returned rep →
  cutoff_overflows (env_now env) (cfg_since_days cfg) = false.
Proof. rewrite run_unfold. by destruct (cutoff_overflows _ _). Qed.

Lemma run_raised cfg env w :
  (run cfg env w).2 = Raised → (run cfg env w).1 = w.
Proof.
  rewrite run_unfold. destruct (cutoff_overflows _ _); [done|].
  destruct (run_fetch cfg env w) as [[its reqs]|]; [|done].
  by destruct (env_render env) as [jp|].
Qed.

(** C1. Outcome-gated commit: a run in which neither the site was generated
    nor the mail was sent leaves every state file as it was, whatever was
    fetched, and says so when it had items to record; so does a run with
    [unique_only] off, a run that fetched nothing, and a run that aborts. *)
Theorem outcome_gated_commit cfg env w :
  ((run cfg env w).2 = Raised → (run cfg env w).1 = w)
  ∧ (∀ rep, (run cfg env w).2 = Returned rep →
       (site_generated rep = false ∧ email_sent rep = false)
       ∨ cfg_unique_only cfg = false ∨ items rep = [] →
       state_files (run cfg env w).1 = state_files w)
  ∧ (∀ rep, (run cfg env w).2 = Returned rep →
       site_generated rep = false → email_sent rep = false →
       cfg_unique_only cfg = true → items rep ≠ [] →
       StateNotWritten ∈ notices rep).
Proof.
  split; [apply run_raised|]. split.
  - intros rep Hrun Hcase.
    destruct (run_returned _ _ _ _ Hrun) as (jp & _ & _ & _ & _ & -> & _).
    rewrite commit_state_files, deliver_state_files.
    destruct Hcase as [[-> ->]|[->| ->]]; simpl; [|done|].
    + by rewrite !andb_false_r.
    + by rewrite !andb_false_r.
  - intros rep Hrun Hsg Hes Huo Hits.
    destruct (run_returned _ _ _ _ Hrun) as (jp & _ & _ & _ & _ & _ & out0 & out1 & ->).
    rewrite !elem_of_app. right. right. right.
    unfold commit. rewrite Hsg, Hes, Huo. simpl. rewrite !andb_false_r.
    destruct (items rep); [done|]. simpl. by left.
Qed.


(** The items of a run without the fallback, or with a paginator that
    collected something, are the paginator's. *)
Lemma run_items_paginated cfg env w rep :
  (run cfg env w).2 = Returned rep →
  cfg_fallback_when_empty cfg = false
  ∨ collected (pag_state (run_paginate cfg env w)) ≠ [] →
  items rep = collected (pag_state (run_paginate cfg env w)).
Proof.
  intros Hrun Hfb.
  destruct (run_returned _ _ _ _ Hrun) as (jp & Hfetch & _).
  by destruct (fetch_items_paginated _ _ _ _ _ _ _ _ _ Hfetch Hfb).
Qed.

(** C4 (as amended). Dedup exclusion: with [unique_only] on, an item whose
    identifier is in the loaded seen-set is not among the items that the
    paginator collects, and so not among the items of the run when the
    fallback flag is off or the paginator collected something. *)
Theorem dedup_exclusion cfg env w (it : FeedItem) (aid : string) :
  cfg_unique_only cfg = true →
  it !! "id" = Some aid → aid ≠ "" → aid ∈ run_seen_ids cfg w →
  (it ∉ collected (pag_state (run_paginate cfg env w)))
  ∧ (∀ rep, (run cfg env w).2 = Returned rep →
       cfg_fallback_when_empty cfg = false
       ∨ collected (pag_state (run_paginate cfg env w)) ≠ [] →
       it ∉ items rep).
Proof.
  intros Huo Hid Hne Hin.
  assert (it ∉ collected (pag_state (run_paginate cfg env w))) as Hpag.
  { intros Hc. apply paginate_fresh in Hc as [_ Hc].
    by rewrite (is_seen_true _ _ it aid) in Hc. }
  split; [done|]. intros rep Hrun Hfb.
  by rewrite (run_items_paginated _ _ _ _ Hrun Hfb).
Qed.

(** C5 (as amended). Cutoff exclusion: with [since_days > 0], an item whose
    effective timestamp is before the cutoff is not among the items that
    the paginator collects, and so not among the items of the run when the
    fallback flag is off or the paginator collected something; when the scan
    of a page comes to such an item it sets [reached_cutoff] and returns
    without looking at the rest of the page, and a page whose scan sets
    [reached_cutoff] is the last one requested. *)
Theorem cutoff_exclusion cfg env w (it : FeedItem) (t : Z) :
  0 < cfg_since_days cfg →
  effective_time fromisoformat it = Some t →
  t < env_now env - cfg_since_days cfg * MICROS_PER_DAY →
  (it ∉ collected (pag_state (run_paginate cfg env w)))
  ∧ (∀ rep, (run cfg env w).2 = Returned rep →
       cfg_fallback_when_empty cfg = false
       ∨ collected (pag_state (run_paginate cfg env w)) ≠ [] →
       it ∉ items rep)
  ∧ (∀ c r rest,
       scan_page fromisoformat (cfg_unique_only cfg) (run_seen_ids cfg w)
         (run_cutoff cfg env) (run_want_new cfg) c r (it :: rest) = (c, true))
  ∧ (∀ n s page,
       env_feed env (length (calls s)) (start s) (page_size (run_want_new cfg))
         = Returned page →
       (scan_page fromisoformat (cfg_unique_only cfg) (run_seen_ids cfg w)
          (run_cutoff cfg env) (run_want_new cfg)
          (collected s) (reached_cutoff s) page).2 = true →
       ∃ s', page_loop fromisoformat (env_feed env) (cfg_unique_only cfg)
               (run_seen_ids cfg w) (run_cutoff cfg env) (run_want_new cfg)
               (S n) s = Done s'
             ∧ reached_cutoff s' = true
             ∧ calls s' = calls s ++ [(start s, page_size (run_want_new cfg))]).
Proof.
  intros Hdays Ht Hlt.
  assert (before_cutoff fromisoformat (run_cutoff cfg env) it = true) as Hstale.
  { apply (before_cutoff_true _ _ (env_now env - cfg_since_days cfg * MICROS_PER_DAY) _ t);
      [|done|done].
    unfold run_cutoff, cutoff_of. by apply Z.ltb_lt in Hdays as ->. }
  assert (it ∉ collected (pag_state (run_paginate cfg env w))) as Hpag.
  { intros Hc. apply paginate_fresh in Hc as [Hc _]. by rewrite Hstale in Hc. }
  split; [done|]. split; [|split].
  - intros rep Hrun Hfb. by rewrite (run_items_paginated _ _ _ _ Hrun Hfb).
  - intros c r rest. by apply scan_page_stale.
  - intros n s page Hfeed Hscan.
    destruct (page_loop_step fromisoformat (env_feed env) (cfg_unique_only cfg)
                (run_seen_ids cfg w) (run_cutoff cfg env) (run_want_new cfg)
                n s page Hfeed) as [Hstop _].
    destruct Hstop as (s' & Hs' & _ & Hr & Hc); [by right; left|].
    exists s'. by rewrite Hr.
Qed.

End RunFacts.

(** ** Items without an identifier *)

Lemma commit_ids_app seen_ids l1 l2 :
  commit_ids seen_ids (l1 ++ l2) = commit_ids (commit_ids seen_ids l1) l2.
Proof. unfold commit_ids. apply foldl_app. Qed.

(** C10. An item whose [id] is missing or empty is never taken for seen:
    the scan that comes to it, if it is not before the cutoff, appends it
    whatever [unique_only] and the seen-set are; the commit computes the
    same set with it or without it, so the set that is written holds only
    non-empty identifiers beyond the loaded ones; and after any run the
    item is still not taken for seen. *)
Theorem idless_items_bypass (it : FeedItem) :
  opt_truthy (it !! "id") = false →
  (∀ unique_only seen_ids, is_seen unique_only seen_ids it = false)
  ∧ (∀ fromisoformat unique_only seen_ids cutoff want_new c r rest,
       before_cutoff fromisoformat cutoff it = false →
       scan_page fromisoformat unique_only seen_ids cutoff want_new c r (it :: rest)
       = if len_ge (c ++ [it]) want_new then (c ++ [it], r)
         else scan_page fromisoformat unique_only seen_ids cutoff want_new
                (c ++ [it]) r rest)
  ∧ (∀ seen_ids l1 l2,
       commit_ids seen_ids (l1 ++ it :: l2) = commit_ids seen_ids (l1 ++ l2))
  ∧ (∀ seen_ids its aid,
       aid ∈ commit_ids seen_ids its → aid ∉ seen_ids →
       aid ≠ "" ∧ ∃ it', it' ∈ its ∧ it' !! "id" = Some aid)
  ∧ (∀ fromisoformat cfg env w,
       is_seen (cfg_unique_only cfg)
         (run_seen_ids cfg (run fromisoformat cfg env w).1) it = false).
Proof.
  intros Hid.
  assert (truthy_id it = None) as Hnone.
  { unfold truthy_id. destruct (it !! "id") as [aid|]; [|done].
    simpl in Hid. by rewrite Hid. }
  assert (∀ unique_only seen_ids, is_seen unique_only seen_ids it = false) as Hseen.
  { intros uo seen. unfold is_seen. rewrite Hnone. apply andb_false_r. }
  split; [done|]. split; [|split; [|split]].
  - intros iso uo seen cutoff want c r rest Hfresh. simpl.
    by rewrite Hfresh, Hseen.
  - intros seen l1 l2. rewrite !commit_ids_app.
    change (commit_ids (commit_ids seen l1) (it :: l2))
      with (commit_ids (add_seen (commit_ids seen l1) it) l2).
    f_equal. unfold add_seen.
    destruct (it !! "id") as [aid|]; [|done]. simpl in Hid. by rewrite Hid.
  - intros seen its aid Hin Hnot. rewrite commit_ids_spec in Hin.
    apply elem_of_union in Hin as [Hin|Hin]; [done|].
    unfold item_ids in Hin. apply elem_of_list_to_set in Hin.
    apply list_elem_of_omap in Hin as (it' & Hit' & Hid').
    unfold truthy_id in Hid'. destruct (it' !! "id") as [aid'|] eqn:E; [|done].
    destruct (str_truthy aid') eqn:Et; [|done]. injection Hid' as ->.
    split; [by intros ->|]. by exists it'.
  - intros iso cfg env w. apply Hseen.
Qed.

(** ** Delivery guards *)

(** C2 (as amended). Idempotent delivery: when the mail stage runs twice
    for the same snapshot, the second time in a new process over the same
    disk, the first run sends, and the flag file can be created after the
    send, then the first run left the flag file and the second skips the
    send with the file-guard notice alone; a first run that meets no guard
    and whose send succeeds does send, so that the two runs make exactly
    one send; and in one process, once a mail has been sent, the process
    guard skips every later send with its notice. *)
Theorem idempotent_delivery cfg env1 env2 jp1 jp2 w :
  cfg_email_enabled cfg = true →
  Stamp.run_stamp (env_today env1) jp1 = Stamp.run_stamp (env_today env2) jp2 →
  env_touch_ok env1 = true →
  let stamp := Stamp.run_stamp (env_today env1) jp1 in
  let first := deliver cfg env1 jp1 w in
  let second := deliver cfg env2 jp2 (new_process first.1.1) in
  (first.1.2 = true →
     flag_path (cfg_out_dir cfg) stamp ∈ flag_files first.1.1
     ∧ SENT_EMAIL first.1.1 = true
     ∧ second.1.2 = false
     ∧ second.1.1 = new_process first.1.1
     ∧ (env_mkdir_ok env2 = true → second.2 = [FileGuardSkip stamp]))
  ∧ (SENT_EMAIL w = false →
     flag_path (cfg_out_dir cfg) stamp ∉ flag_files w →
     env_mkdir_ok env1 = true → env_delivery env1 = SendOk →
     first.1.2 = true ∧ first.2 = [EmailSent])
  ∧ (∀ env3 jp3,
       SENT_EMAIL first.1.1 = true →
       (deliver cfg env3 jp3 first.1.1).1.2 = false
       ∧ (deliver cfg env3 jp3 first.1.1).1.1 = first.1.1
       ∧ (env_mkdir_ok env3 = true →
          (deliver cfg env3 jp3 first.1.1).2 = [ProcessGuardSkip])).
Proof.
  intros Hen Hstamp Htouch stamp first second.
  assert (∀ env jp w0, SENT_EMAIL w0 = true →
            (deliver cfg env jp w0).1.2 = false
            ∧ (deliver cfg env jp w0).1.1 = w0
            ∧ (env_mkdir_ok env = true → (deliver cfg env jp w0).2 = [ProcessGuardSkip]))
    as Hprocess.
  { intros env jp w0 Hs. unfold deliver. rewrite Hen, Hs.
    destruct (env_mkdir_ok env); simpl; [|done]. done. }
  assert (∀ env jp w0, SENT_EMAIL w0 = false →
            flag_path (cfg_out_dir cfg) (Stamp.run_stamp (env_today env) jp) ∈ flag_files w0 →
            (deliver cfg env jp w0).1.2 = false
            ∧ (deliver cfg env jp w0).1.1 = w0
            ∧ (env_mkdir_ok env = true →
               (deliver cfg env jp w0).2 = [FileGuardSkip (Stamp.run_stamp (env_today env) jp)]))
    as Hfile.
  { intros env jp w0 Hs Hflag. unfold deliver. rewrite Hen, Hs.
    destruct (env_mkdir_ok env); simpl; [|done].
    by rewrite bool_decide_eq_true_2. }
  split; [|split].
  - intros Hsent.
    assert (flag_path (cfg_out_dir cfg) stamp ∈ flag_files first.1.1
            ∧ SENT_EMAIL first.1.1 = true) as [Hflag Hs].
    { subst first stamp. revert Hsent. unfold deliver. rewrite Hen, Htouch.
      destruct (SENT_EMAIL w); destruct (env_mkdir_ok env1); simpl; try done.
      destruct (bool_decide _); simpl; [done|].
      destruct (env_delivery env1); simpl; try done.
      intros _. split; [|done]. apply elem_of_union_r. by apply elem_of_singleton. }
    split; [done|]. split; [done|].
    subst second. unfold stamp in *. rewrite Hstamp in *.
    by apply Hfile.
  - intros Hs Hflag Hmk Hok. subst first stamp. unfold deliver.
    rewrite Hen, Hs, Hmk, Hok. simpl. by rewrite bool_decide_eq_false_2.
  - intros env3 jp3 Hs. by apply Hprocess.
Qed.

(** ** The snapshot stamp *)

Module StampFacts.
Import Stamp.

Lemma strip_prefix_Some p : ∀ s r,
  strip_prefix p s = Some r ↔ s = p +:+ r.
Proof.
  induction p as [|a p IH]; intros s r; simpl.
  - split; [by intros [= ->]|by intros ->].
  - destruct s as [|b s]; [done|].
    destruct (Ascii.eqb_spec a b) as [->|Hne].
    + rewrite IH. split; [by intros ->|by intros [= ->]].
    + split; [done|]. intros [= -> _]. done.
Qed.

Lemma take_digits_Some n : ∀ s d r,
  take_digits n s = Some (d, r) ↔
  s = d +:+ r ∧ String.length d = n ∧ all_digits d = true.
Proof.
  induction n as [|n IH]; intros s d r; simpl.
  - split.
    + by intros [= <- <-].
    + intros (-> & Hlen & _). by destruct d.
  - destruct s as [|c s].
    + split; [done|]. intros (H & Hlen & _). by destruct d.
    + destruct (is_digit c) eqn:Hc.
      * destruct (take_digits n s) as [[d' r']|] eqn:Ht.
        -- apply IH in Ht as (-> & Hlen & Hd). split.
           ++ intros [= <- <-]. simpl. by rewrite Hlen, Hc, Hd.
           ++ intros (H & Hlen' & Hd'). destruct d as [|c' d]; [done|].
              simpl in *. injection H as -> H. injection Hlen' as Hlen'.
              apply andb_true_iff in Hd' as [_ Hd'].
              assert (take_digits n (d' +:+ r') = Some (d, r)) as Ht.
              { apply IH. by rewrite H. }
              assert (take_digits n (d' +:+ r') = Some (d', r')) as Ht'.
              { by apply IH. }
              rewrite Ht in Ht'. by injection Ht' as -> ->.
        -- split; [done|]. intros (H & Hlen' & Hd'). destruct d as [|c' d]; [done|].
           simpl in *. injection H as -> H. injection Hlen' as Hlen'.
           apply andb_true_iff in Hd' as [_ Hd'].
           assert (take_digits n s = Some (d, r)) as Ht'.
           { apply IH. by rewrite H. }
           by rewrite Ht in Ht'.
      * split; [done|]. intros (H & Hlen' & Hd'). destruct d as [|c' d]; [done|].
        simpl in *. injection H as -> H.
        apply andb_true_iff in Hd' as [Hd' _]. by rewrite Hc in Hd'.
Qed.

Lemma match_here_Some s g : match_here s = Some g ↔ token_at s g.
Proof.
  unfold match_here, token_at. split.
  - destruct (strip_prefix "arxiv_" s) as [r0|] eqn:H0; [|done].
    destruct (take_digits 8 r0) as [[d8 r1]|] eqn:H1; [|done].
    destruct (strip_prefix "_" r1) as [r2|] eqn:H2; [|done].
    destruct (take_digits 6 r2) as [[d6 post]|] eqn:H3; [|done].
    intros [= <-].
    apply strip_prefix_Some in H0. apply take_digits_Some in H1 as (H1 & L8 & D8).
    apply strip_prefix_Some in H2. apply take_digits_Some in H3 as (H3 & L6 & D6).
    exists d8, d6, post. by rewrite H0, H1, H2, H3.
  - intros (d8 & d6 & post & -> & L8 & D8 & L6 & D6 & ->).
    assert (strip_prefix "arxiv_" ("arxiv_" +:+ d8 +:+ "_" +:+ d6 +:+ post)
            = Some (d8 +:+ "_" +:+ d6 +:+ post)) as -> by by apply strip_prefix_Some.
    assert (take_digits 8 (d8 +:+ "_" +:+ d6 +:+ post)
            = Some (d8, "_" +:+ d6 +:+ post)) as -> by by apply take_digits_Some.
    assert (strip_prefix "_" ("_" +:+ d6 +:+ post) = Some (d6 +:+ post)) as ->
      by by apply strip_prefix_Some.
    by assert (take_digits 6 (d6 +:+ post) = Some (d6, post)) as ->
      by by apply take_digits_Some.
Qed.

(** [re_search] finds a token when there is one, and only then. *)
Lemma re_search_Some s : ∀ g,
  re_search s = Some g → ∃ pre rest, s = pre +:+ rest ∧ token_at rest g.
Proof.
  induction s as [|c s IH]; intros g.
  - cbn [re_search]. destruct (match_here "") as [g'|] eqn:Hm; [|done].
    intros [= <-]. exists "", "". split; [done|]. by apply match_here_Some.
  - cbn [re_search]. destruct (match_here (String c s)) as [g'|] eqn:Hm.
    + intros [= <-]. exists "", (String c s). split; [done|]. by apply match_here_Some.
    + intros H. destruct (IH g H) as (pre & rest & -> & Htok).
      by exists (String c pre), rest.
Qed.

Lemma re_search_None s : re_search s = None → ¬ has_token s.
Proof.
  induction s as [|c s IH]; cbn [re_search].
  - destruct (match_here "") as [g'|] eqn:Hm; [done|]. intros _ (pre & rest & g & H & Htok).
    destruct pre; [|done]. change ("" = rest) in H. subst rest.
    apply match_here_Some in Htok. by rewrite Hm in Htok.
  - destruct (match_here (String c s)) as [g'|] eqn:Hm; [done|].
    intros Hs (pre & rest & g & H & Htok). destruct pre as [|c' pre].
    + change (String c s = rest) in H. subst rest.
      apply match_here_Some in Htok. by rewrite Hm in Htok.
    + change (String c s = String c' (pre +:+ rest)) in H.
      injection H as -> ->. apply (IH Hs). by exists pre, rest, g.
Qed.

(** [re_search] gives the digits of the first token. *)
Lemma re_search_first s : ∀ g, re_search s = Some g → first_token s g.
Proof.
  induction s as [|c s IH]; intros g.
  - cbn [re_search]. destruct (match_here "") as [g'|] eqn:Hm; [|done].
    intros [= <-]. exists "", "". split; [done|]. split; [by apply match_here_Some|].
    intros pre' rest' g'' _ _. simpl. lia.
  - cbn [re_search]. destruct (match_here (String c s)) as [g'|] eqn:Hm.
    + intros [= <-]. exists "", (String c s). split; [done|].
      split; [by apply match_here_Some|]. intros pre' rest' g'' _ _. simpl. lia.
    + intros H. destruct (IH g H) as (pre & rest & -> & Htok & Hmin).
      exists (String c pre), rest. split; [done|]. split; [done|].
      intros pre' rest' g' Heq Htok'. destruct pre' as [|c' pre'].
      * change (String c (pre +:+ rest) = rest') in Heq. subst rest'.
        apply match_here_Some in Htok'. by rewrite Hm in Htok'.
      * change (String c (pre +:+ rest) = String c' (pre' +:+ rest')) in Heq.
        injection Heq as _ Heq. specialize (Hmin pre' rest' g' Heq Htok').
        simpl. lia.
Qed.

Lemma first_token_search s : ∀ g, first_token s g → re_search s = Some g.
Proof.
  induction s as [|c s IH]; intros g (pre & rest & Heq & Htok & Hmin).
  - destruct pre; [|done]. change ("" = rest) in Heq. subst rest.
    apply match_here_Some in Htok. by vm_compute in Htok.
  - cbn [re_search]. destruct (match_here (String c s)) as [g0|] eqn:Hm.
    + apply match_here_Some in Hm.
      specialize (Hmin "" (String c s) g0 eq_refl Hm).
      destruct pre; [|simpl in Hmin; lia].
      change (String c s = rest) in Heq. subst rest.
      apply match_here_Some in Hm, Htok. by rewrite Hm in Htok.
    + destruct pre as [|c' pre].
      * change (String c s = rest) in Heq. subst rest.
        apply match_here_Some in Htok. by rewrite Hm in Htok.
      * change (String c s = String c' (pre +:+ rest)) in Heq.
        injection Heq as -> ->. apply IH. exists pre, rest.
        split; [done|]. split; [done|]. intros pre' rest' g' Heq' Htok'.
        assert (String c' (pre +:+ rest) = String c' pre' +:+ rest') as Heq''
          by (change (String c' pre' +:+ rest') with (String c' (pre' +:+ rest'));
              by rewrite Heq').
        specialize (Hmin (String c' pre') rest' g' Heq'' Htok'). simpl in Hmin. lia.
Qed.

End StampFacts.

(** C9 (as amended). Snapshot stamp: for an artifact whose base name is
    ASCII, the extraction never raises, so that [_fallback_stamp], the base
    name without its extension, is never what decides the stamp; when the
    base name contains a token [arxiv_YYYYMMDD_HHMMSS], the stamp is the
    [YYYYMMDD_HHMMSS] of the first one; when it contains none, the stamp
    is the date of the day [YYYYMMDD]. *)
Theorem snapshot_stamp (today path : string) :
  is_ascii (Stamp.basename path) = true →
  Stamp._extract_stamp_from_path today path ≠ Raised
  ∧ (∀ g, Stamp.first_token (Stamp.basename path) g → Stamp.run_stamp today path = g)
  ∧ (Stamp.has_token (Stamp.basename path) →
     ∃ g, Stamp.first_token (Stamp.basename path) g ∧ Stamp.run_stamp today path = g)
  ∧ (¬ Stamp.has_token (Stamp.basename path) → Stamp.run_stamp today path = today).
Proof.
  intros _. unfold Stamp.run_stamp, Stamp._extract_stamp_from_path.
  split; [by destruct (Stamp.re_search (Stamp.basename path))|]. split; [|split].
  - intros g Hfirst. by rewrite (StampFacts.first_token_search _ _ Hfirst).
  - intros Htok. destruct (Stamp.re_search (Stamp.basename path)) as [g|] eqn:Hs.
    + exists g. split; [by apply StampFacts.re_search_first|done].
    + by apply StampFacts.re_search_None in Hs.
  - intros Hnone. destruct (Stamp.re_search (Stamp.basename path)) as [g|] eqn:Hs; [|done].
    exfalso. apply Hnone. apply StampFacts.re_search_Some in Hs as (pre & rest & H1 & H2).
    by exists pre, rest, g.
Qed.

(** * Worked cases *)

Import Sample.

(** The scenario of the spec: seen-set {a1, a2} and a page [a1, a2, a3]
    give [a3] alone, after one request. *)
Example scenario_dedup :
  (run iso cfg_dedup env_dedup world_dedup).2
  = Returned (mkReport [a3] [(0, 25)] true false
                [Fetched 1; StateUpdated 3 ".state/seen.json"])
  ∧ stored_ids (state_files (run iso cfg_dedup env_dedup world_dedup).1)
      ".state/seen.json" = {["a1"; "a2"; "a3"]}.
Proof. split; by vm_compute. Qed.

(** The scenario of the spec: with the cutoff a day back and items updated
    now, two hours ago and three days ago, the result stops after the second
    item and [reached_cutoff] is set. *)
Example scenario_cutoff :
  run_paginate iso cfg_cutoff env_cutoff world_empty
  = Done (mkPag [n1; n2] true 0 [(0, 25)]).
Proof. by vm_compute. Qed.

(** C3, counterexample: with [max_results = -1] the target is [-1] and the
    paginator returns one item. *)
Lemma quota_bound_counterexample :
  want_new_of (Some (-1)) = -1
  ∧ collected (pag_state (paginate iso (feed_always [a1]) false ∅ None
                            (want_new_of (Some (-1))))) = [a1]
  ∧ ¬ (Z.of_nat (length (collected (pag_state
         (paginate iso (feed_always [a1]) false ∅ None (want_new_of (Some (-1)))))))
       ≤ want_new_of (Some (-1))).
Proof.
  split; [done|]. split; [by vm_compute|]. vm_compute. intros H. by apply H.
Qed.

(** C3, worked: two wanted, full pages of 25: two items are collected. *)
Lemma quota_bound_witness :
  1 ≤ want_new_of (Some 2)
  ∧ Z.of_nat (length (collected (pag_state
       (paginate iso (feed_always full_page) false ∅ None (want_new_of (Some 2))))))
    ≤ want_new_of (Some 2).
Proof.
  apply (quota_bound iso (feed_always full_page) false ∅ None (Some 2)).
  intros n [= <-]. lia.
Defined.

Example two_collected :
  collected (pag_state (paginate iso (feed_always full_page) false ∅ None 2))
  = [a3; a3].
Proof. by vm_compute. Qed.

(** C4, counterexample: with the fallback on, the seen item [a1] is the
    result of the run. *)
Lemma dedup_exclusion_counterexample :
  cfg_unique_only cfg_dedup_fallback = true
  ∧ a1 !! "id" = Some "a1"
  ∧ "a1" ∈ run_seen_ids cfg_dedup_fallback world_a1
  ∧ (run iso cfg_dedup_fallback env_only_a1 world_a1).2
    = Returned (mkReport [a1] [(0, 25); (0, 10)] true false
                  [Fetched 1; StateUpdated 1 ".state/seen.json"])
  ∧ ¬ (∀ rep, (run iso cfg_dedup_fallback env_only_a1 world_a1).2 = Returned rep →
         a1 ∉ items rep).
Proof.
  assert ((run iso cfg_dedup_fallback env_only_a1 world_a1).2
    = Returned (mkReport [a1] [(0, 25); (0, 10)] true false
                  [Fetched 1; StateUpdated 1 ".state/seen.json"])) as Hrun
    by by vm_compute.
  split; [done|]. split; [by vm_compute|].
  split; [by vm_compute|].
  split; [done|]. intros H. apply (H _ Hrun). simpl. by left.
Qed.

(** C5, counterexample: with the fallback on, the item [n3], three days
    old under a cutoff of one day, is the result of the run. *)
Lemma cutoff_exclusion_counterexample :
  0 < cfg_since_days cfg_cutoff_fallback
  ∧ effective_time iso n3 = Some 1704585600000000
  ∧ 1704585600000000
    < env_now env_only_n3 - cfg_since_days cfg_cutoff_fallback * MICROS_PER_DAY
  ∧ (run iso cfg_cutoff_fallback env_only_n3 world_empty).2
    = Returned (mkReport [n3] [(0, 25); (0, 10)] true false
                  [Fetched 1; StateUpdated 1 ".state/seen.json"])
  ∧ ¬ (∀ rep, (run iso cfg_cutoff_fallback env_only_n3 world_empty).2 = Returned rep →
         n3 ∉ items rep).
Proof.
  assert ((run iso cfg_cutoff_fallback env_only_n3 world_empty).2
    = Returned (mkReport [n3] [(0, 25); (0, 10)] true false
                  [Fetched 1; StateUpdated 1 ".state/seen.json"])) as Hrun
    by by vm_compute.
  split; [done|]. split; [by vm_compute|]. split; [by vm_compute|].
  split; [done|]. intros H. apply (H _ Hrun). simpl. by left.
Qed.

(** C2, counterexample: the send succeeds and [flag_path.touch()] raises,
    which line 478 ignores; no flag file is left, and the mail stage of the
    same snapshot in the next process sends again. *)
Lemma idempotent_delivery_counterexample :
  let env := no_touch env_mail in
  let first := deliver cfg_mail env json_path world_empty in
  let second := deliver cfg_mail env json_path (new_process first.1.1) in
  first.1.2 = true ∧ first.2 = [EmailSent]
  ∧ flag_files first.1.1 = ∅
  ∧ second.1.2 = true ∧ second.2 = [EmailSent].
Proof. by vm_compute. Qed.


(** C9, counterexample: [outputs/results.json] has no token; its stamp is
    the date of the day and not [results]. *)
Lemma snapshot_stamp_counterexample :
  ¬ Stamp.has_token (Stamp.basename "outputs/results.json")
  ∧ Stamp._fallback_stamp "outputs/results.json" = "results"
  ∧ Stamp.run_stamp "20240110" "outputs/results.json" = "20240110"
  ∧ Stamp.run_stamp "20240110" "outputs/results.json"
    ≠ Stamp._fallback_stamp "outputs/results.json".
Proof.
  split; [by apply StampFacts.re_search_None|]. by vm_compute.
Qed.

(** C1, worked: one item is fetched, the site is not asked for and mail is
    off; the state file keeps its document and the run says that nothing
    was written. *)
Lemma outcome_gated_commit_witness :
  (run iso cfg_nothing env_mail world_a1).2
  = Returned (mkReport [a3] [(0, 25)] false false [Fetched 1; StateNotWritten])
  ∧ state_files (run iso cfg_nothing env_mail world_a1).1 = state_files world_a1
  ∧ StateNotWritten ∈ [Fetched 1; StateNotWritten].
Proof.
  assert ((run iso cfg_nothing env_mail world_a1).2
    = Returned (mkReport [a3] [(0, 25)] false false [Fetched 1; StateNotWritten]))
    as Hrun by (vm_compute; reflexivity).
  destruct (outcome_gated_commit iso cfg_nothing env_mail world_a1) as (_ & H2 & H3).
  split; [exact Hrun|]. split.
  - apply (H2 _ Hrun). left. split; reflexivity.
  - apply (H3 _ Hrun); try reflexivity. discriminate.
Defined.

(** C2, worked: the first run sends and leaves the flag file; the same
    snapshot in a new process is skipped by the file guard, and in the same
    process by the process guard. *)
Lemma idempotent_delivery_witness :
  (deliver cfg_mail env_mail json_path world_empty).1.2 = true
  ∧ (deliver cfg_mail env_mail json_path world_empty).2 = [EmailSent]
  ∧ flag_path "outputs" "20240110_000000"
      ∈ flag_files (deliver cfg_mail env_mail json_path world_empty).1.1
  ∧ (deliver cfg_mail env_mail json_path
       (new_process (deliver cfg_mail env_mail json_path world_empty).1.1)).1.2 = false
  ∧ (deliver cfg_mail env_mail json_path
       (new_process (deliver cfg_mail env_mail json_path world_empty).1.1)).2
    = [FileGuardSkip "20240110_000000"]
  ∧ (deliver cfg_mail env_mail json_path
       (deliver cfg_mail env_mail json_path world_empty).1.1).1.2 = false
  ∧ (deliver cfg_mail env_mail json_path
       (deliver cfg_mail env_mail json_path world_empty).1.1).2 = [ProcessGuardSkip].
Proof.
  pose proof (idempotent_delivery cfg_mail env_mail env_mail json_path json_path
                world_empty eq_refl eq_refl eq_refl) as H.
  cbv zeta in H. destruct H as (H1 & H2 & H3).
  destruct H2 as [Hsent Hout]; [reflexivity|apply not_elem_of_empty|reflexivity|reflexivity|].
  destruct (H1 Hsent) as (Hflag & Hproc & Hsecond & _ & Hnotice).
  destruct (H3 env_mail json_path Hproc) as (Hthird & _ & Hnotice3).
  split; [exact Hsent|]. split; [exact Hout|]. split; [exact Hflag|].
  split; [exact Hsecond|]. split; [exact (Hnotice eq_refl)|].
  split; [exact Hthird|exact (Hnotice3 eq_refl)].
Defined.

(** C4, worked: in the scenario of the spec the seen item [a1] is neither
    collected nor in the result. *)
Lemma dedup_exclusion_witness :
  (a1 ∉ collected (pag_state (run_paginate iso cfg_dedup env_dedup world_dedup)))
  ∧ a1 ∉ [a3].
Proof.
  assert ((run iso cfg_dedup env_dedup world_dedup).2
    = Returned (mkReport [a3] [(0, 25)] true false
                  [Fetched 1; StateUpdated 3 ".state/seen.json"]))
    as Hrun by (vm_compute; reflexivity).
  destruct (dedup_exclusion iso cfg_dedup env_dedup world_dedup a1 "a1")
    as [Hpag Hitems].
  - reflexivity.
  - vm_compute. reflexivity.
  - discriminate.
  - vm_compute. reflexivity.
  - split; [exact Hpag|]. apply (Hitems _ Hrun). left. reflexivity.
Defined.

(** C5, worked: in the scenario of the spec the item [n3], three days old,
    is neither collected nor in the result, and the scan stops at it. *)
Lemma cutoff_exclusion_witness :
  (n3 ∉ collected (pag_state (run_paginate iso cfg_cutoff env_cutoff world_empty)))
  ∧ scan_page iso true (run_seen_ids cfg_cutoff world_empty)
      (run_cutoff cfg_cutoff env_cutoff) 10 [n1; n2] false [n3; a1] = ([n1; n2], true).
Proof.
  destruct (cutoff_exclusion iso cfg_cutoff env_cutoff world_empty n3 1704585600000000)
    as (Hpag & _ & Hscan & _).
  - reflexivity.
  - vm_compute. reflexivity.
  - vm_compute. reflexivity.
  - split; [exact Hpag|]. apply Hscan.
Defined.


(** C9, worked: the name has two tokens, and the stamp is that of the
    first. *)
Lemma snapshot_stamp_witness :
  Stamp.run_stamp "20240112" two_tokens = "20240110_000000".
Proof.
  destruct (snapshot_stamp "20240112" two_tokens) as (_ & H & _).
  - vm_compute. reflexivity.
  - apply H. exists "", "arxiv_20240110_000000_arxiv_20240111_235959.json".
    split; [reflexivity|]. split.
    + exists "20240110", "000000", "_arxiv_20240111_235959.json".
      repeat split; reflexivity.
    + intros pre' rest' g' _ _. simpl. lia.
Defined.

(** C7, worked: a first page of three items, fewer than the page size of
    25, ends the loop after one request. *)
Lemma bounded_pagination_witness :
  ∃ s', paginate iso (feed_of [[a1; a2; a3]]) false ∅ None 10 = Done s'
        ∧ calls s' = [(0, 25)].
Proof.
  destruct (bounded_pagination iso (feed_of [[a1; a2; a3]]) false ∅ None 10)
    as (_ & _ & _ & H).
  apply (H [a1; a2; a3]).
  - reflexivity.
  - vm_compute. reflexivity.
Defined.

(** C7, worked: full pages of seen items make the loop go to its ceiling:
    twenty requests, from 0 to 475 by steps of 25, and nothing collected. *)
Example twenty_pages :
  paginate iso (feed_always full_page) true {["a3"]} None 10
  = Done (mkPag [] false 500 ((λ i : nat, (Z.of_nat i * 25, 25)) <$> seq 0 20)).
Proof. by vm_compute. Qed.

(** C8, worked: the only item of the feed is seen, so the paginator
    collects nothing; with the flag the run asks once more, for 10 items
    from 0, and takes the page as it is; without it the result is empty. *)
Lemma fallback_fetch_witness :
  fetch_items iso (feed_always [a1]) true {["a1"]} None 10 true
  = Returned ([a1], [(0, 25); (0, 10)])
  ∧ fetch_items iso (feed_always [a1]) true {["a1"]} None 10 false
    = Returned ([], [(0, 25)]).
Proof.
  assert (paginate iso (feed_always [a1]) true {["a1"]} None 10
          = Done (mkPag [] false 0 [(0, 25)])) as Hpag by (vm_compute; reflexivity).
  split.
  - destruct (fallback_fetch iso (feed_always [a1]) true {["a1"]} None 10 true _ Hpag)
      as (H & _).
    apply H. split; reflexivity.
  - destruct (fallback_fetch iso (feed_always [a1]) true {["a1"]} None 10 false _ Hpag)
      as (_ & _ & H & _).
    apply H; reflexivity.
Defined.

(** C10, worked: the item without [id] is not taken for seen and the commit
    does not record it. *)
Lemma idless_items_bypass_witness :
  is_seen true {["a1"; ""]} no_id = false
  ∧ commit_ids {["a1"]} ([a3] ++ no_id :: [a2]) = commit_ids {["a1"]} ([a3] ++ [a2]).
Proof.
  destruct (idless_items_bypass no_id) as (H1 & _ & H3 & _).
  - vm_compute. reflexivity.
  - split; [apply H1|apply H3].
Defined.

(** C10, worked: the items without identifier are collected by a run that
    commits, and by the next run again; the state holds [a3] alone. *)
Example idless_collected_again :
  let env := env_of (feed_of [[no_id; empty_id; a3]]) true SendOk in
  let first := run iso cfg_dedup env world_empty in
  items <$> (match first.2 with Returned rep => Some rep | Raised => None end)
    = Some [no_id; empty_id; a3]
  ∧ stored_ids (state_files first.1) ".state/seen.json" = {["a3"]}
  ∧ items <$> (match (run iso cfg_dedup env (new_process first.1)).2 with
               | Returned rep => Some rep | Raised => None end)
    = Some [no_id; empty_id].
Proof. by vm_compute. Qed.

(** * Further properties of the controller *)

(** ** The paginator as a selection from the fetched pages *)

Lemma take_while_app_all {A} (p : A → bool) (l k : list A) :
  take_while p l = l → take_while p (l ++ k) = l ++ take_while p k.
Proof.
  induction l as [|x l IH]; simpl; [done|].
  destruct (p x); [|done]. intros [= H]. by rewrite IH.
Qed.

Section Selection.

Variable fromisoformat : string → option Z.
Variable feed : nat → Z → Z → outcome (list FeedItem).
Variables (unique_only : bool) (seen_ids : gset string).
Variables (cutoff : option Z) (want_new : Z).

Local Abbreviation scan := (scan_page fromisoformat unique_only seen_ids cutoff want_new).
Local Abbreviation body := (page_body fromisoformat unique_only seen_ids cutoff want_new).
Local Abbreviation loop := (page_loop fromisoformat feed unique_only seen_ids cutoff want_new).
Local Abbreviation fresh := (λ it, negb (before_cutoff fromisoformat cutoff it)).
Local Abbreviation unseen := (λ it, is_seen unique_only seen_ids it = false).
Local Abbreviation quota := (Z.to_nat (Z.max 1 want_new)).

(** The selection continued from what is collected already. *)
Local Abbreviation select_from := (λ (c all : list FeedItem),
  c ++ take (quota - length c) (filter unseen (take_while fresh all))).

Lemma scan_page_selection page : ∀ c r,
  below_quota want_new c → (scan c r page).1 = select_from c page.
Proof.
  induction page as [|it rest IH]; intros c r Hc; simpl.
  - by rewrite ?filter_nil, ?take_nil, ?app_nil_r.
  - destruct (before_cutoff fromisoformat cutoff it) eqn:Hst; simpl.
    { by rewrite ?filter_nil, ?take_nil, ?app_nil_r. }
    destruct (is_seen unique_only seen_ids it) eqn:Hse.
    + rewrite filter_cons_False; [|by rewrite Hse]. by apply IH.
    + rewrite filter_cons_True; [|done].
      destruct (len_ge (c ++ [it]) want_new) eqn:Hq; simpl.
      * apply len_ge_true in Hq. rewrite length_app in Hq. simpl in Hq.
        assert ((quota - length c)%nat = 1%nat) as ->.
        { destruct Hc as [->|Hc]; simpl in *; lia. }
        simpl. by rewrite take_0.
      * apply len_ge_false in Hq. rewrite IH; [|by right].
        rewrite length_app in *. simpl in *.
        replace (quota - length c)%nat with (S (quota - (length c + 1)))%nat by lia.
        simpl. by rewrite <- app_assoc.
Qed.

(** A scan that neither fills the quota nor meets the cutoff has looked at
    the whole page. *)
Lemma scan_page_through page : ∀ c,
  (scan c false page).2 = false →
  len_ge (scan c false page).1 want_new = false →
  take_while fresh page = page
  ∧ (scan c false page).1 = c ++ filter unseen page.
Proof.
  induction page as [|it rest IH]; intros c; simpl.
  - intros _ _. by rewrite app_nil_r.
  - destruct (before_cutoff fromisoformat cutoff it) eqn:Hst; simpl; [done|].
    destruct (is_seen unique_only seen_ids it) eqn:Hse.
    + intros Hr Hq. destruct (IH c Hr Hq) as [-> ->].
      split; [done|]. rewrite filter_cons_False; [done|by rewrite Hse].
    + destruct (len_ge (c ++ [it]) want_new) eqn:Hq'; simpl.
      * intros _ Hq. by rewrite Hq' in Hq.
      * intros Hr Hq. destruct (IH (c ++ [it]) Hr Hq) as [-> ->].
        split; [done|]. rewrite filter_cons_True; [|done]. by rewrite <- app_assoc.
Qed.

Lemma page_loop_selection n : ∀ s,
  below_quota want_new (collected s) → reached_cutoff s = false →
  ∃ new,
    calls (pag_state (loop n s)) = calls s ++ new
    ∧ collected (pag_state (loop n s))
      = select_from (collected s) (concat (responses feed (length (calls s)) new)).
Proof.
  induction n as [|n IH]; intros s Hc Hr.
  - exists []. simpl. by rewrite ?filter_nil, ?take_nil, ?app_nil_r.
  - rewrite page_loop_S.
    destruct (feed (length (calls s)) (start s) (page_size want_new)) as [page|] eqn:Hfeed.
    + pose proof (page_body_go fromisoformat unique_only seen_ids cutoff want_new
                    (log_call want_new s) page) as Hgo.
      pose proof (page_body_collected fromisoformat unique_only seen_ids cutoff want_new
                    (log_call want_new s) page) as Hcol.
      pose proof (page_body_reached fromisoformat unique_only seen_ids cutoff want_new
                    (log_call want_new s) page) as Hrea.
      pose proof (page_body_calls fromisoformat unique_only seen_ids cutoff want_new
                    (log_call want_new s) page) as Hcal.
      cbn [log_call collected reached_cutoff calls start] in Hgo, Hcol, Hrea, Hcal.
      rewrite Hr in Hgo, Hcol, Hrea.
      destruct (body (log_call want_new s) page).2.
      * symmetry in Hgo. apply negb_true_iff in Hgo. rewrite stops_unfold in Hgo.
        apply orb_false_iff in Hgo as [Hgo _]. apply orb_false_iff in Hgo as [Hq Hr'].
        destruct (scan_page_through page (collected s) Hr' Hq) as [Htw Hscan].
        destruct (IH (body (log_call want_new s) page).1) as (new & Hnew & Hsel).
        { right. rewrite Hcol. by apply len_ge_false. }
        { by rewrite Hrea. }
        exists ((start s, page_size want_new) :: new).
        rewrite Hnew, Hsel, Hcal, Hcol, Hscan. split; [by rewrite <- app_assoc|].
        cbn [responses concat]. rewrite Hfeed. cbn [page_of].
        rewrite (length_app (calls s)). cbn [length]. rewrite Nat.add_1_r.
        rewrite take_while_app_all by done. rewrite filter_app.
        rewrite Hscan in Hq. apply len_ge_false in Hq. rewrite length_app in Hq.
        rewrite (take_app_ge (filter unseen page)) by lia.
        rewrite length_app, <- app_assoc. do 3 f_equal. lia.
      * exists [(start s, page_size want_new)]. simpl.
        rewrite Hcal, Hcol, Hfeed. simpl. rewrite app_nil_r.
        split; [done|]. by apply scan_page_selection.
    + exists [(start s, page_size want_new)]. simpl. rewrite Hfeed. simpl.
      by rewrite ?filter_nil, ?take_nil, ?app_nil_r.
Qed.

(** X1. The paginator as a selection: what the loop has collected when it
    ends is, of the pages that its requests got put end to end, the items
    before the first one older than the cutoff, without the seen ones, up
    to the quota: the loop drops no other item, adds none and keeps the
    order of the feed; without dedup and without cutoff it is the first
    [quota] items of the pages. *)
Theorem paginate_selection :
  let e := pag_state (paginate fromisoformat feed unique_only seen_ids cutoff want_new) in
  collected e
  = selection fromisoformat unique_only seen_ids cutoff want_new
      (concat (responses feed 0 (calls e)))
  ∧ collected e `sublist_of` concat (responses feed 0 (calls e))
  ∧ (unique_only = false → cutoff = None →
     collected e = take quota (concat (responses feed 0 (calls e)))).
Proof.
  cbv zeta.
  destruct (page_loop_selection max_pages (mkPag [] false 0 [])) as (new & Hnew & Hsel);
    [by left|done|].
  cbn [collected calls length app] in Hnew, Hsel. rewrite Nat.sub_0_r in Hsel.
  unfold paginate.
  rewrite Hnew, Hsel. fold (selection fromisoformat unique_only seen_ids cutoff want_new
                              (concat (responses feed 0 new))).
  split; [done|]. split.
  - unfold selection. etrans; [apply sublist_take|]. etrans; [apply sublist_filter|].
    generalize (concat (responses feed 0 new)). intros l.
    induction l as [|x l IH]; simpl; [done|].
    destruct (negb _); [by apply sublist_skip|apply sublist_nil_l].
  - intros -> ->. unfold selection. f_equal.
    generalize (concat (responses feed 0 new)). intros l.
    induction l as [|x l IH]; [done|].
    cbn [take_while before_cutoff negb]. rewrite filter_cons_True by done.
    f_equal. exact IH.
Qed.

End Selection.

(** ** Requests of a run *)

(** X2. The requests of a run: between one and twenty page requests, the
    [i]-th for [page_size] items from [start = i * page_size], then at most
    one fallback request for [want_new] items from 0: at most 21 requests
    in all, every page request asking for 25 to 200 items from a start
    between 0 and 3800. *)
Theorem run_request_budget fromisoformat cfg env w rep :
  (run fromisoformat cfg env w).2 = Returned rep →
  ∃ k : nat,
    (1 ≤ k ≤ 20)%nat
    ∧ (requests rep = next_requests (run_want_new cfg) 0 k
       ∨ requests rep = next_requests (run_want_new cfg) 0 k ++ [(0, run_want_new cfg)])
    ∧ (length (requests rep) ≤ 21)%nat
    ∧ Forall (λ q : Request, 0 ≤ q.1 ≤ 3800 ∧ 25 ≤ q.2 ≤ 200)
        (next_requests (run_want_new cfg) 0 k).
Proof.
  intros Hrun. destruct (run_returned _ _ _ _ _ Hrun) as (jp & Hfetch & _).
  unfold run_fetch, fetch_items, paginate in Hfetch.
  destruct (page_loop_calls fromisoformat (env_feed env) (cfg_unique_only cfg)
              (run_seen_ids cfg w) (run_cutoff cfg env) (run_want_new cfg)
              max_pages (mkPag [] false 0 [])) as (k & Hk & Hk1 & Hcalls).
  cbn [calls start app] in Hcalls.
  destruct (page_loop _ _ _ _ _ _ _ _) as [s|s]; [|done]. simpl in Hcalls.
  exists k. split; [split; [by apply Hk1|done]|].
  assert (length (next_requests (run_want_new cfg) 0 k) = k) as Hlen.
  { unfold next_requests. by rewrite length_fmap, length_seq. }
  assert (requests rep = next_requests (run_want_new cfg) 0 k
          ∨ requests rep = next_requests (run_want_new cfg) 0 k ++ [(0, run_want_new cfg)])
    as Hreq.
  { rewrite <- Hcalls. destruct (collected s).
    - destruct (cfg_fallback_when_empty cfg).
      + destruct (env_feed env _ _ _); [|done]. right. by inversion Hfetch.
      + left. by inversion Hfetch.
    - left. by inversion Hfetch. }
  split; [done|]. split.
  - unfold max_pages in Hk.
    destruct Hreq as [->| ->]; rewrite ?length_app, Hlen; simpl; lia.
  - unfold next_requests. apply Forall_fmap, Forall_forall. intros i Hi.
    apply elem_of_seq in Hi. simpl.
    pose proof (page_size_range (run_want_new cfg)). unfold max_pages in Hk. nia.
Qed.

(** ** Timestamps *)

(** A value of [it.get(key)] that [_parse_dt] does not turn into an
    instant: no value, the empty string, or a string that
    [fromisoformat] refuses. *)
Lemma parse_dt_None fromisoformat (o : option string) :
  _parse_dt fromisoformat o = None ↔
  o = None ∨ o = Some "" ∨ ∃ s, o = Some s ∧ fromisoformat (replace_Z s) = None.
Proof.
  unfold _parse_dt. destruct o as [s|]; [|by split; [left|]].
  destruct s as [|a s]; simpl.
  - split; [by right; left|done].
  - split.
    + intros H. right. right. by eexists.
    + intros [?|[?|(s' & [= <-] & H)]]; done.
Qed.

(** X3. An item whose [updated] and [published] are both missing, empty or
    refused by [fromisoformat] is never older than the cutoff, whatever the
    cutoff is: the scan that comes to it appends it unless it is seen, and
    goes on with the page. *)
Theorem unknown_time_kept fromisoformat (it : FeedItem) :
  (it !! "updated" = None ∨ it !! "updated" = Some ""
   ∨ ∃ s, it !! "updated" = Some s ∧ fromisoformat (replace_Z s) = None) →
  (it !! "published" = None ∨ it !! "published" = Some ""
   ∨ ∃ s, it !! "published" = Some s ∧ fromisoformat (replace_Z s) = None) →
  (∀ cutoff, before_cutoff fromisoformat cutoff it = false)
  ∧ (∀ unique_only seen_ids cutoff want_new c r rest,
       scan_page fromisoformat unique_only seen_ids cutoff want_new c r (it :: rest)
       = if is_seen unique_only seen_ids it
         then scan_page fromisoformat unique_only seen_ids cutoff want_new c r rest
         else if len_ge (c ++ [it]) want_new then (c ++ [it], r)
         else scan_page fromisoformat unique_only seen_ids cutoff want_new
                (c ++ [it]) r rest).
Proof.
  intros Hu Hp. apply parse_dt_None in Hu, Hp.
  assert (∀ cutoff, before_cutoff fromisoformat cutoff it = false) as Hfresh.
  { intros [c|]; [|done]. unfold before_cutoff, effective_time. by rewrite Hu, Hp. }
  split; [done|]. intros uo seen cutoff want c r rest. simpl. by rewrite Hfresh.
Qed.

Lemma scan_page_no_cutoff iso1 iso2 uo seen want page : ∀ c r,
  scan_page iso1 uo seen None want c r page = scan_page iso2 uo seen None want c r page
  ∧ (scan_page iso1 uo seen None want c r page).2 = r.
Proof.
  induction page as [|it rest IH]; intros c r; simpl; [done|].
  destruct (is_seen uo seen it); [apply IH|].
  destruct (len_ge (c ++ [it]) want); [done|apply IH].
Qed.

Lemma page_loop_no_cutoff iso1 iso2 feed uo seen want n : ∀ s,
  reached_cutoff s = false →
  page_loop iso1 feed uo seen None want n s = page_loop iso2 feed uo seen None want n s
  ∧ reached_cutoff (pag_state (page_loop iso1 feed uo seen None want n s)) = false.
Proof.
  induction n as [|n IH]; intros s Hr; [done|].
  rewrite !page_loop_S. destruct (feed _ _ _) as [page|]; [|done].
  assert (page_body iso1 uo seen None want (log_call want s) page
          = page_body iso2 uo seen None want (log_call want s) page) as Hbody.
  { unfold page_body. destruct page as [|it rest]; [done|].
    by destruct (scan_page_no_cutoff iso1 iso2 uo seen want (it :: rest)
                   (collected (log_call want s)) (reached_cutoff (log_call want s)))
      as [-> _]. }
  pose proof (page_body_reached iso1 uo seen None want (log_call want s) page) as Hrea.
  destruct (scan_page_no_cutoff iso1 iso2 uo seen want page
              (collected (log_call want s)) (reached_cutoff (log_call want s)))
    as [_ Hscan].
  rewrite Hscan in Hrea. simpl in Hrea. rewrite Hr in Hrea.
  rewrite <- Hbody. destruct (page_body iso1 uo seen None want (log_call want s) page).2.
  - by apply IH.
  - done.
Qed.

(** X4. With [since_days] zero or negative there is no cutoff and line 208
    cannot raise: the paginator never reads a timestamp (its result is the
    same for every [fromisoformat]) and [reached_cutoff] stays false. *)
Theorem no_window_no_cutoff iso1 iso2 feed unique_only seen_ids want_new
    (now since_days : Z) :
  since_days ≤ 0 →
  cutoff_of now since_days = None
  ∧ cutoff_overflows now since_days = false
  ∧ paginate iso1 feed unique_only seen_ids (cutoff_of now since_days) want_new
    = paginate iso2 feed unique_only seen_ids (cutoff_of now since_days) want_new
  ∧ reached_cutoff (pag_state
      (paginate iso1 feed unique_only seen_ids (cutoff_of now since_days) want_new))
    = false.
Proof.
  intros Hd.
  assert (cutoff_of now since_days = None) as ->.
  { unfold cutoff_of. by destruct (Z.ltb_spec 0 since_days); [lia|]. }
  split; [done|]. split.
  { unfold cutoff_overflows. by destruct (Z.ltb_spec 0 since_days); [lia|]. }
  unfold paginate. by apply page_loop_no_cutoff.
Qed.

(** ** From one run to the next *)


(** ** Strings *)

Module StrFacts.

Lemma app_cons (a : ascii) (s t : string) : String a s +:+ t = String a (s +:+ t).
Proof. done. Qed.

Lemma app_nil_r (s : string) : s +:+ "" = s.
Proof. induction s as [|a s IH]; [done|]. by rewrite app_cons, IH. Qed.

Lemma app_assoc (s t u : string) : (s +:+ t) +:+ u = s +:+ t +:+ u.
Proof. induction s as [|a s IH]; [done|]. rewrite !app_cons. by rewrite IH. Qed.

Lemma length_app (s t : string) :
  String.length (s +:+ t) = (String.length s + String.length t)%nat.
Proof. induction s as [|a s IH]; [done|]. rewrite app_cons. simpl. by rewrite IH. Qed.

Lemma app_inj_r (t : string) : ∀ a b : string, a +:+ t = b +:+ t → a = b.
Proof.
  induction a as [|x a IH]; intros [|y b] H.
  - done.
  - apply (f_equal String.length) in H. rewrite !length_app in H. simpl in H. lia.
  - apply (f_equal String.length) in H. rewrite !length_app in H. simpl in H. lia.
  - rewrite !app_cons in H. injection H as -> H. f_equal. by apply IH.
Qed.

End StrFacts.

(** ** What is written under the state path *)

Lemma deliver_notices cfg env jp w x :
  x ∈ (deliver cfg env jp w).2 →
  x = ProcessGuardSkip ∨ (∃ stamp, x = FileGuardSkip stamp) ∨ x = EmailIncomplete
  ∨ x = EmailSent ∨ x = EmailFailed.
Proof.
  unfold deliver. destruct (cfg_email_enabled cfg); [|by intros ?%elem_of_nil].
  destruct (SENT_EMAIL w); destruct (env_mkdir_ok env); simpl;
    rewrite ?elem_of_cons, ?elem_of_nil; try naive_solver.
  destruct (bool_decide _); simpl; rewrite ?elem_of_cons, ?elem_of_nil;
    [naive_solver|].
  destruct (env_delivery env); simpl; rewrite ?elem_of_cons, ?elem_of_nil; naive_solver.
Qed.

Lemma length_sorted_ids (X : gset string) : length (sorted_ids X) = size X.
Proof.
  unfold sorted_ids. by rewrite (merge_sort_Permutation str_le (elements X)).
Qed.

(** X6. The notice of an update is truthful: a run that reports
    [StateUpdated n path] has published something (site or mail), [path] is
    the configured state path, and the file of that path now holds an
    ["ids"] list of [n] entries, in ascending order and without repetition,
    whose members are the loaded seen-set and the identifiers of the
    items. *)
Theorem state_update_notice fromisoformat cfg env w rep (n : nat) (path : string) :
  (run fromisoformat cfg env w).2 = Returned rep →
  StateUpdated n path ∈ notices rep →
  path = cfg_state_path cfg
  ∧ (site_generated rep = true ∨ email_sent rep = true)
  ∧ ∃ ids,
      state_files (run fromisoformat cfg env w).1 !! Path.norm path = Some (DocIds ids)
      ∧ Sorted str_le ids ∧ NoDup ids ∧ length ids = n
      ∧ list_to_set ids = run_seen_ids cfg w ∪ item_ids (items rep).
Proof.
  intros Hrun Hin. revert Hrun. rewrite run_unfold.
  destruct (cutoff_overflows _ _); [done|].
  destruct (run_fetch fromisoformat cfg env w) as [[its reqs]|]; [|done].
  destruct (env_render env) as [jp|]; [|done]. cbn zeta. cbn [fst snd].
  intros [= <-]. cbn [notices items site_generated email_sent] in *.
  rewrite !elem_of_app in Hin. destruct Hin as [Hin|[Hin|[Hin|Hin]]].
  - destruct (is_empty its); apply list_elem_of_singleton in Hin; done.
  - destruct (env_site_ok env); [by apply elem_of_nil in Hin|].
    by apply list_elem_of_singleton in Hin.
  - apply deliver_notices in Hin. naive_solver.
  - revert Hin. rewrite commit_state_files, deliver_state_files. unfold commit.
    destruct (cfg_unique_only cfg && str_truthy (cfg_state_path cfg)
              && negb (is_empty its)
              && (cfg_site_requested cfg && env_site_ok env
                  || (deliver cfg env jp w).1.2)) eqn:Hcond.
    + destruct (env_state_write env); simpl.
      * intros [= -> ->]%list_elem_of_singleton.
        apply andb_true_iff in Hcond as [_ Hpub]. apply orb_true_iff in Hpub.
        split; [done|]. split; [done|].
        exists (sorted_ids (commit_ids (run_seen_ids cfg w) its)).
        rewrite lookup_insert_eq. destruct (sorted_ids_sorted
          (commit_ids (run_seen_ids cfg w) its)) as [Hs Hn].
        split; [done|]. split; [done|]. split; [done|].
        split; [apply length_sorted_ids|].
        by rewrite list_to_set_sorted_ids, commit_ids_spec.
      * by intros [=]%list_elem_of_singleton.
      * by intros [=]%list_elem_of_singleton.
    + simpl. destruct (cfg_unique_only cfg && negb (is_empty its)).
      * by intros [=]%list_elem_of_singleton.
      * by intros ?%elem_of_nil.
Qed.

(** X7. The document that the commit writes depends on the set of
    identifiers only: the items in another order, or the same items
    committed once more, give the same list. *)
Theorem commit_order_independent (seen_ids : gset string) (l1 l2 : list FeedItem) :
  l1 ≡ₚ l2 →
  sorted_ids (commit_ids seen_ids l1) = sorted_ids (commit_ids seen_ids l2)
  ∧ sorted_ids (commit_ids (commit_ids seen_ids l1) l2)
    = sorted_ids (commit_ids seen_ids l1)
  ∧ sorted_ids (commit_ids seen_ids (l1 ++ l2)) = sorted_ids (commit_ids seen_ids l1).
Proof.
  intros Hperm.
  assert (item_ids l1 = item_ids l2) as Hids.
  { unfold item_ids. apply set_eq. intros x. rewrite !elem_of_list_to_set.
    rewrite !list_elem_of_omap. by setoid_rewrite Hperm. }
  assert (item_ids (l1 ++ l2) = item_ids l1) as Happ.
  { unfold item_ids. rewrite omap_app, list_to_set_app_L. fold (item_ids l1).
    fold (item_ids l2). rewrite Hids. set_solver. }
  rewrite !commit_ids_spec, Happ, Hids. split; [done|]. split; [|done].
  f_equal. set_solver.
Qed.

(** ** The mail stage *)

(** X8. When the mail stage sends: exactly when mail is enabled, nothing
    was sent in this process, the flag directory can be made, the flag file
    of the snapshot is not there and the send succeeds.  A stage that does
    not send leaves the world as it was, so that a later run can still
    send; a stage that sends sets the process guard, touches no state file,
    and adds at most the flag file of the snapshot. *)
Theorem deliver_sends_iff cfg env json_path w :
  let flag := flag_path (cfg_out_dir cfg)
                (Stamp.run_stamp (env_today env) json_path) in
  let w' := (deliver cfg env json_path w).1.1 in
  ((deliver cfg env json_path w).1.2 = true ↔
     cfg_email_enabled cfg = true ∧ SENT_EMAIL w = false
     ∧ env_mkdir_ok env = true ∧ flag ∉ flag_files w
     ∧ env_delivery env = SendOk)
  ∧ ((deliver cfg env json_path w).1.2 = false → w' = w)
  ∧ ((deliver cfg env json_path w).1.2 = true →
       SENT_EMAIL w' = true ∧ state_files w' = state_files w
       ∧ flag_files w ⊆ flag_files w' ∧ flag_files w' ⊆ flag_files w ∪ {[flag]}
       ∧ (env_touch_ok env = true → flag ∈ flag_files w')
       ∧ (deliver cfg env json_path w).2 = [EmailSent]).
Proof.
  cbv zeta. unfold deliver.
  destruct (cfg_email_enabled cfg); [|by split; [split; [|intros (?&?)]|]].
  destruct (SENT_EMAIL w) eqn:Hs; destruct (env_mkdir_ok env) eqn:Hm; simpl;
    try (split; [split; [done|naive_solver]|done]).
  destruct (bool_decide _) eqn:Hf; simpl.
  { apply bool_decide_eq_true in Hf. split; [split; [done|naive_solver]|done]. }
  apply bool_decide_eq_false in Hf.
  destruct (env_delivery env) eqn:Hd; simpl;
    try (split; [split; [done|naive_solver]|done]).
  split; [done|]. split; [done|]. intros _.
  destruct (env_touch_ok env); simpl; set_solver.
Qed.

Lemma has_slash_app s t : has_slash (s +:+ t) = has_slash s || has_slash t.
Proof.
  induction s as [|c s IH]; [done|]. rewrite StrFacts.app_cons. simpl.
  by rewrite IH, orb_assoc.
Qed.

Lemma all_digits_no_slash d : Stamp.all_digits d = true → has_slash d = false.
Proof.
  induction d as [|c d IH]; [done|]. simpl. intros [Hc Hd]%andb_true_iff.
  rewrite IH by done. rewrite orb_false_r.
  destruct (Ascii.eqb_spec c "/") as [->|]; [|done]. by vm_compute in Hc.
Qed.

(** The stamp of a run has no slash when the date of the day has none. *)
Lemma run_stamp_no_slash today json_path :
  has_slash today = false → has_slash (Stamp.run_stamp today json_path) = false.
Proof.
  intros Htoday. unfold Stamp.run_stamp, Stamp._extract_stamp_from_path.
  destruct (Stamp.re_search (Stamp.basename json_path)) as [g|] eqn:Hs; [|done].
  apply StampFacts.re_search_Some in Hs
    as (pre & rest & _ & d8 & d6 & post & _ & _ & D8 & _ & D6 & ->).
  by rewrite !has_slash_app, (all_digits_no_slash d8), (all_digits_no_slash d6).
Qed.

Module PathFacts.
Import Path.

Lemma split_slash_no_slash s : has_slash s = false → split_slash s = [s].
Proof.
  induction s as [|c s IH]; [done|]. simpl.
  destruct (Ascii.eqb c "/"); [done|]. intros Hs. by rewrite IH.
Qed.

Lemma join_cons piece rest :
  rest ≠ [] → join (piece :: rest) = piece +:+ "/" +:+ join rest.
Proof. by destruct rest. Qed.

Lemma join_snoc_inj pieces a b : join (pieces ++ [a]) = join (pieces ++ [b]) → a = b.
Proof.
  induction pieces as [|piece pieces IH]; [done|]. simpl app.
  rewrite !join_cons by by destruct pieces.
  intros H. apply (inj (String.app _)) in H. apply (inj (String.app _)) in H.
  by apply IH.
Qed.

Lemma render_snoc r pieces a : render r (pieces ++ [a]) = r +:+ join (pieces ++ [a]).
Proof. by destruct pieces. Qed.

(** The flag file of a stamp without a slash is a file of the flag
    directory. *)
Lemma div_flag dir stamp :
  has_slash stamp = false →
  div dir ("email_sent_" +:+ stamp +:+ ".flag")
  = root dir +:+ join (parts dir ++ ["email_sent_" +:+ stamp +:+ ".flag"]).
Proof.
  intros Hs. unfold div, parts at 2.
  assert (has_slash ("email_sent_" +:+ stamp +:+ ".flag") = false) as Hname
    by by rewrite !has_slash_app, Hs.
  rewrite (split_slash_no_slash _ Hname).
  change ("email_sent_" +:+ stamp +:+ ".flag")
    with (String "e" ("mail_sent_" +:+ stamp +:+ ".flag")).
  cbn [leading_slashes Ascii.eqb Bool.eqb List.filter is_part String.eqb negb orb].
  apply render_snoc.
Qed.

End PathFacts.

(** Two stamps without slashes have two flag files in one directory. *)
Lemma flag_path_inj (out_dir s1 s2 : string) :
  has_slash s1 = false → has_slash s2 = false →
  flag_path out_dir s1 = flag_path out_dir s2 → s1 = s2.
Proof.
  unfold flag_path. intros H1 H2. rewrite !PathFacts.div_flag by done. intros H.
  apply (inj (String.app _)) in H. apply PathFacts.join_snoc_inj in H.
  apply (inj (String.app _)) in H. by apply StrFacts.app_inj_r in H.
Qed.

(** X9. Snapshots do not block one another: the flag files of two stamps
    (without slashes, as the stamps of runs are) in one output directory
    are two files, whatever way the directory is written, and the flag
    files of other snapshots do not stop the mail of this one. *)
Theorem other_snapshots_do_not_block cfg env json_path w :
  cfg_email_enabled cfg = true → SENT_EMAIL w = false →
  env_mkdir_ok env = true → env_delivery env = SendOk →
  Stamp.all_digits (env_today env) = true →
  (∀ f, f ∈ flag_files w →
     ∃ stamp, has_slash stamp = false ∧ f = flag_path (cfg_out_dir cfg) stamp
              ∧ stamp ≠ Stamp.run_stamp (env_today env) json_path) →
  (∀ s1 s2, has_slash s1 = false → has_slash s2 = false →
     flag_path (cfg_out_dir cfg) s1 = flag_path (cfg_out_dir cfg) s2 → s1 = s2)
  ∧ has_slash (Stamp.run_stamp (env_today env) json_path) = false
  ∧ (deliver cfg env json_path w).1.2 = true
  ∧ (deliver cfg env json_path w).2 = [EmailSent].
Proof.
  intros Hen Hs Hmk Hok Htoday Hflags. split; [apply flag_path_inj|].
  assert (has_slash (Stamp.run_stamp (env_today env) json_path) = false) as Hstamp
    by by apply run_stamp_no_slash, all_digits_no_slash.
  split; [done|].
  unfold deliver. rewrite Hen, Hs, Hmk, Hok. simpl.
  rewrite bool_decide_eq_false_2; [done|].
  intros Hin. destruct (Hflags _ Hin) as (stamp & Hslash & Heq & Hne).
  by apply flag_path_inj in Heq.
Qed.

(** ** Runs one after the other *)

(** What one run does to the guards. *)
Lemma run_guards fromisoformat cfg env w :
  (SENT_EMAIL w = true →
     sent (run fromisoformat cfg env w).2 = false
     ∧ SENT_EMAIL (run fromisoformat cfg env w).1 = true)
  ∧ (sent (run fromisoformat cfg env w).2 = true →
     SENT_EMAIL (run fromisoformat cfg env w).1 = true)
  ∧ flag_files w ⊆ flag_files (run fromisoformat cfg env w).1
  ∧ (∀ jp, env_render env = Returned jp →
       flag_path (cfg_out_dir cfg) (Stamp.run_stamp (env_today env) jp) ∈ flag_files w →
       sent (run fromisoformat cfg env w).2 = false)
  ∧ (∀ jp, env_render env = Returned jp →
       sent (run fromisoformat cfg env w).2 = true → env_touch_ok env = true →
       flag_path (cfg_out_dir cfg) (Stamp.run_stamp (env_today env) jp)
         ∈ flag_files (run fromisoformat cfg env w).1).
Proof.
  rewrite run_unfold.
  destruct (cutoff_overflows _ _); [by repeat split; try done; intros|].
  destruct (run_fetch fromisoformat cfg env w) as [[its reqs]|];
    [|by repeat split; try done; intros].
  destruct (env_render env) as [jp|]; [|by repeat split; try done; intros].
  cbn zeta. cbn [fst snd sent email_sent].
  destruct (commit_flags cfg env (run_seen_ids cfg w) its
              (cfg_site_requested cfg && env_site_ok env)
              (deliver cfg env jp w).1.2 (deliver cfg env jp w).1.1) as [-> ->].
  unfold deliver. destruct (cfg_email_enabled cfg); [|by repeat split; try done; intros].
  destruct (SENT_EMAIL w) eqn:Hs; destruct (env_mkdir_ok env); simpl;
    try (by repeat split; try done; intros).
  split; [done|].
  destruct (bool_decide (flag_path (cfg_out_dir cfg) (Stamp.run_stamp (env_today env) jp)
                           ∈ flag_files w)) eqn:Hf; simpl.
  { by repeat split; try done; intros. }
  apply bool_decide_eq_false in Hf.
  destruct (env_delivery env); simpl; try (by repeat split; try done; intros).
  split; [done|]. split; [destruct (env_touch_ok env); set_solver|].
  split.
  - intros jp' [= <-] Hin. done.
  - intros jp' [= <-] _ ->. set_solver.
Qed.

Lemma sends_cons (r : outcome Report) rs :
  sends (r :: rs) = ((if sent r then 1 else 0) + sends rs)%nat.
Proof.
  unfold sends. destruct (sent r) eqn:Hr.
  - by rewrite filter_cons_True.
  - rewrite filter_cons_False; [done|]. by rewrite Hr.
Qed.

(** X10. One mail per process: over any sequence of runs in one process,
    whatever their configurations and whatever the collaborators do, at
    most one run sends the mail, and none does when one was sent before. *)
Theorem one_mail_per_process fromisoformat (steps : list Step) (w : World) :
  Forall (λ st, step_restart st = false) steps →
  (sends (run_seq fromisoformat steps w).2 ≤ 1)%nat
  ∧ (SENT_EMAIL w = true → sends (run_seq fromisoformat steps w).2 = 0%nat).
Proof.
  intros Hsteps. revert w.
  induction Hsteps as [|st steps Hst _ IH]; intros w.
  { split; [unfold sends; simpl; lia|by intros _]. }
  cbn [run_seq fst snd]. unfold enter. rewrite Hst, sends_cons.
  destruct (run_guards fromisoformat (step_cfg st) (step_env st) w)
    as (Hguard & Hsent & _).
  destruct (IH (run fromisoformat (step_cfg st) (step_env st) w).1) as [IH1 IH2].
  split.
  - destruct (sent (run fromisoformat (step_cfg st) (step_env st) w).2) eqn:Hr; [|done].
    by rewrite IH2; [|apply Hsent].
  - intros Hs. destruct (Hguard Hs) as [-> Hs']. by rewrite IH2.
Qed.

(** X11. One mail per snapshot: over any sequence of runs, in one process
    or in several over the same disk, in which [flag_path.touch()] never
    fails, at most one run sends the mail of the snapshot whose flag file
    is [f], and none does when the flag file is there from the start. *)
Theorem one_mail_per_snapshot fromisoformat (steps : list Step) (w : World) (f : string) :
  Forall (λ st, env_touch_ok (step_env st) = true) steps →
  (sends_for f steps (run_seq fromisoformat steps w).2 ≤ 1)%nat
  ∧ (f ∈ flag_files w → sends_for f steps (run_seq fromisoformat steps w).2 = 0%nat).
Proof.
  intros Hsteps. revert w.
  induction Hsteps as [|st steps Hst _ IH]; intros w.
  { split; [simpl; lia|by intros _]. }
  cbn [run_seq fst snd sends_for].
  destruct (run_guards fromisoformat (step_cfg st) (step_env st) (enter st w))
    as (_ & _ & Hmono & Hskip & Htouch).
  assert (flag_files (enter st w) = flag_files w) as Hflags
    by (unfold enter; by destruct (step_restart st)).
  rewrite Hflags in Hmono, Hskip.
  destruct (IH (run fromisoformat (step_cfg st) (step_env st) (enter st w)).1)
    as [IH1 IH2].
  unfold step_flag.
  destruct (env_render (step_env st)) as [jp|] eqn:Hrender.
  - destruct (sent (run fromisoformat (step_cfg st) (step_env st) (enter st w)).2)
      eqn:Hsent; simpl.
    + case_bool_decide as Hf; simpl.
      * injection Hf as Hf. split.
        -- rewrite IH2; [lia|]. rewrite <- Hf. exact (Htouch jp eq_refl eq_refl Hst).
        -- intros Hin. rewrite <- Hf in Hin. by pose proof (Hskip jp eq_refl Hin).
      * split; [done|]. intros Hin. apply IH2. by apply Hmono.
    + split; [done|]. intros Hin. apply IH2. by apply Hmono.
  - rewrite bool_decide_eq_false_2 by done. rewrite andb_false_r. simpl.
    split; [done|]. intros Hin. apply IH2. by apply Hmono.
Qed.

Lemma run_stored_mono fromisoformat cfg env w path :
  env_state_write env ≠ WriteBroken →
  (str_truthy (cfg_state_path cfg) = true →
   Path.names_file (cfg_state_path cfg) = true) →
  stored_ids (state_files w) path
    ⊆ stored_ids (state_files (run fromisoformat cfg env w).1) path.
Proof.
  intros Hwrite Hfile. rewrite run_unfold.
  destruct (cutoff_overflows _ _); [done|].
  destruct (run_fetch fromisoformat cfg env w) as [[its reqs]|]; [|done].
  destruct (env_render env) as [jp|]; [|done]. cbn zeta. cbn [fst].
  rewrite commit_state_files, deliver_state_files.
  destruct (_ && _ && _ && _) eqn:Hcond; [|done].
  destruct (env_state_write env); [|done|done].
  destruct (decide (Path.norm (cfg_state_path cfg) = path)) as [<-|Hne].
  - rewrite stored_ids_insert, list_to_set_sorted_ids, commit_ids_spec.
    do 2 (apply andb_true_iff in Hcond as [Hcond _]).
    unfold run_seen_ids, load_seen. rewrite Hcond.
    apply andb_true_iff in Hcond as [_ Hpath]. rewrite (Hfile Hpath). set_solver.
  - by rewrite stored_ids_insert_ne.
Qed.

(** X12. Nothing is forgotten: over any sequence of runs, in one process or
    in several, with any configurations and any behaviour of the
    collaborators, no flag file disappears; and when no writing of the
    state breaks after the file has been opened, and the state paths can
    name files, no identifier leaves what a state file holds. *)
Theorem run_seq_monotone fromisoformat (steps : list Step) (w : World) :
  (Forall (λ st, env_state_write (step_env st) ≠ WriteBroken
                 ∧ (str_truthy (cfg_state_path (step_cfg st)) = true →
                    Path.names_file (cfg_state_path (step_cfg st)) = true)) steps →
   ∀ path, stored_ids (state_files w) path
             ⊆ stored_ids (state_files (run_seq fromisoformat steps w).1) path)
  ∧ flag_files w ⊆ flag_files (run_seq fromisoformat steps w).1
  ∧ length (run_seq fromisoformat steps w).2 = length steps.
Proof.
  revert w. induction steps as [|st steps IH]; intros w; [done|].
  cbn [run_seq fst snd length].
  destruct (IH (run fromisoformat (step_cfg st) (step_env st) (enter st w)).1)
    as (IH1 & IH2 & IH3).
  destruct (run_guards fromisoformat (step_cfg st) (step_env st) (enter st w))
    as (_ & _ & Hmono & _).
  assert (flag_files (enter st w) = flag_files w
          ∧ state_files (enter st w) = state_files w) as [Hflags Hstate]
    by (unfold enter; by destruct (step_restart st)).
  split; [|split].
  - intros [[Hwrite Hfile] Hsteps]%Forall_cons path.
    etrans; [|by apply IH1]. rewrite <- Hstate. by apply run_stored_mono.
  - etrans; [|apply IH2]. by rewrite <- Hflags.
  - by rewrite IH3.
Qed.

(** ** The stamp of a saved artifact *)

Lemma basename_from_no_slash name : ∀ acc,
  has_slash name = false → Stamp.basename_from acc name = acc.
Proof.
  induction name as [|c name IH]; intros acc; simpl; [done|].
  destruct (Ascii.eqb c "/"); [done|]. apply IH.
Qed.

Lemma basename_join dir name :
  has_slash name = false → Stamp.basename (dir +:+ "/" +:+ name) = name.
Proof.
  intros Hname. unfold Stamp.basename.
  generalize (dir +:+ "/" +:+ name) at 1. induction dir as [|c dir IH]; intros acc.
  - change ("" +:+ "/" +:+ name) with (String "/" name). simpl.
    by apply basename_from_no_slash.
  - rewrite StrFacts.app_cons. simpl. destruct (Ascii.eqb c "/"); apply IH.
Qed.

Lemma basename_plain name : has_slash name = false → Stamp.basename name = name.
Proof. apply basename_from_no_slash. Qed.


(** X13. The stamp of a saved artifact: for a file named
    [arxiv_YYYYMMDD_HHMMSS] followed by an extension, in whatever
    directory, the stamp is [YYYYMMDD_HHMMSS]; and the stamp of a path is
    that of its last component, so that the directory plays no part.  The
    names are ASCII. *)
Theorem stamp_of_saved_name (today dir d8 d6 ext : string) :
  String.length d8 = 8%nat → Stamp.all_digits d8 = true →
  String.length d6 = 6%nat → Stamp.all_digits d6 = true →
  has_slash ext = false → is_ascii ext = true →
  Stamp.run_stamp today (dir +:+ "/" +:+ "arxiv_" +:+ d8 +:+ "_" +:+ d6 +:+ ext)
    = d8 +:+ "_" +:+ d6
  ∧ Stamp.run_stamp today ("arxiv_" +:+ d8 +:+ "_" +:+ d6 +:+ ext) = d8 +:+ "_" +:+ d6
  ∧ (∀ name, has_slash name = false → is_ascii name = true →
       Stamp.run_stamp today (dir +:+ "/" +:+ name) = Stamp.run_stamp today name).
Proof.
  intros L8 D8 L6 D6 Hext _.
  assert (has_slash ("arxiv_" +:+ d8 +:+ "_" +:+ d6 +:+ ext) = false) as Hname.
  { rewrite !has_slash_app, Hext, (all_digits_no_slash d8), (all_digits_no_slash d6);
      done. }
  assert (Stamp.re_search ("arxiv_" +:+ d8 +:+ "_" +:+ d6 +:+ ext)
          = Some (d8 +:+ "_" +:+ d6)) as Hsearch.
  { assert (Stamp.match_here ("arxiv_" +:+ d8 +:+ "_" +:+ d6 +:+ ext)
            = Some (d8 +:+ "_" +:+ d6)) as Hm.
    { apply StampFacts.match_here_Some. by exists d8, d6, ext. }
    change ("arxiv_" +:+ d8 +:+ "_" +:+ d6 +:+ ext)
      with (String "a" ("rxiv_" +:+ d8 +:+ "_" +:+ d6 +:+ ext)) in *.
    cbn [Stamp.re_search]. by rewrite Hm. }
  assert (∀ name, has_slash name = false →
       Stamp.run_stamp today (dir +:+ "/" +:+ name) = Stamp.run_stamp today name)
    as Hdir.
  { intros name Hn. unfold Stamp.run_stamp, Stamp._extract_stamp_from_path.
    rewrite basename_join by exact Hn. rewrite basename_plain by exact Hn.
    by destruct (Stamp.re_search name). }
  split; [|split; [|by intros name Hn _; apply Hdir]].
  - rewrite Hdir by done.
    unfold Stamp.run_stamp, Stamp._extract_stamp_from_path.
    by rewrite basename_plain, Hsearch.
  - unfold Stamp.run_stamp, Stamp._extract_stamp_from_path.
    by rewrite basename_plain, Hsearch.
Qed.

(** ** The mail switch *)

(** X14. [--no-email] wins over [--email] and over the configuration file,
    and a run with mail switched off sends nothing, touches neither the
    process guard nor a flag file, and writes the state only when the site
    was generated; [--email] wins over the file, and without either flag
    the file decides, mail being off when it says nothing. *)
Theorem mail_switch fromisoformat cfg env w (raw cli : option bool) (no_email : bool) :
  cfg_email_enabled cfg = email_enabled_of raw cli no_email →
  (no_email = true ∨ (cli = Some false) ∨ (cli = None ∧ raw ≠ Some true)) →
  cfg_email_enabled cfg = false
  ∧ sent (run fromisoformat cfg env w).2 = false
  ∧ flag_files (run fromisoformat cfg env w).1 = flag_files w
  ∧ SENT_EMAIL (run fromisoformat cfg env w).1 = SENT_EMAIL w
  ∧ (∀ rep, (run fromisoformat cfg env w).2 = Returned rep →
       state_files (run fromisoformat cfg env w).1 ≠ state_files w →
       site_generated rep = true)
  ∧ email_enabled_of raw (Some true) false = true
  ∧ email_enabled_of (Some true) None false = true.
Proof.
  intros Hcfg Hoff.
  assert (cfg_email_enabled cfg = false) as Hen.
  { rewrite Hcfg. unfold email_enabled_of.
    destruct Hoff as [->|[->|[-> Hraw]]]; [done| |].
    - by destruct no_email.
    - destruct no_email; [done|]. by destruct raw as [[]|]. }
  split; [done|].
  assert (∀ jp, deliver cfg env jp w = (w, false, [])) as Hd.
  { intros jp. unfold deliver. by rewrite Hen. }
  rewrite run_unfold. destruct (cutoff_overflows _ _); [done|].
  destruct (run_fetch fromisoformat cfg env w) as [[its reqs]|]; [|done].
  destruct (env_render env) as [jp|]; [|done]. cbn zeta. rewrite Hd.
  cbn [fst snd sent email_sent site_generated].
  destruct (commit_flags cfg env (run_seen_ids cfg w) its
              (cfg_site_requested cfg && env_site_ok env) false w) as [-> ->].
  split; [done|]. split; [done|]. split; [done|]. split; [|done].
  intros rep [= <-]. cbn [site_generated]. rewrite commit_state_files.
  rewrite orb_false_r. destruct (cfg_site_requested cfg && env_site_ok env); [done|].
  by rewrite !andb_false_r.
Qed.

(** ** Text *)

Module TextFacts.
Import Text.

Ltac each_char c := destruct c as [[] [] [] [] [] [] [] []]; vm_compute; try reflexivity.

Lemma lower_char_idem c : lower_char (lower_char c) = lower_char c.
Proof. each_char c. Qed.

Lemma lower_char_space c : is_space (lower_char c) = is_space c.
Proof. each_char c. Qed.

Lemma lower_char_not_upper c : is_upper (lower_char c) = false.
Proof. each_char c. Qed.

Lemma lower_char_fixed c : is_upper c = false → lower_char c = c.
Proof. unfold lower_char, is_upper. by intros ->. Qed.

Lemma comma_semi_not_space c : is_comma_semi c = true → is_space c = false.
Proof. each_char c; discriminate. Qed.

Lemma no_char_app p s t : no_char p (s +:+ t) = no_char p s && no_char p t.
Proof.
  induction s as [|c s IH]; [done|]. rewrite StrFacts.app_cons. simpl.
  by rewrite IH, andb_assoc.
Qed.

Lemma lower_app s t : lower (s +:+ t) = lower s +:+ lower t.
Proof.
  induction s as [|c s IH]; [done|]. rewrite StrFacts.app_cons. simpl.
  by rewrite IH.
Qed.

Lemma remove_spaces_app s t :
  remove_spaces (s +:+ t) = remove_spaces s +:+ remove_spaces t.
Proof.
  induction s as [|c s IH]; [done|]. rewrite StrFacts.app_cons. simpl.
  destruct (is_space c); by rewrite IH.
Qed.

Lemma remove_spaces_no_space s : no_char is_space (remove_spaces s) = true.
Proof.
  induction s as [|c s IH]; [done|]. simpl.
  destruct (is_space c) eqn:Hc; [done|]. simpl. by rewrite Hc.
Qed.

Lemma remove_spaces_fixed s : no_char is_space s = true → remove_spaces s = s.
Proof.
  induction s as [|c s IH]; [done|]. simpl. intros [Hc Hs]%andb_true_iff.
  apply negb_true_iff in Hc. rewrite Hc. by rewrite IH.
Qed.

Lemma lower_no_space s : no_char is_space (lower s) = no_char is_space s.
Proof.
  induction s as [|c s IH]; [done|]. simpl. by rewrite lower_char_space, IH.
Qed.

Lemma lower_no_upper s : no_char is_upper (lower s) = true.
Proof.
  induction s as [|c s IH]; [done|]. simpl. by rewrite lower_char_not_upper, IH.
Qed.

Lemma lower_fixed s : no_char is_upper s = true → lower s = s.
Proof.
  induction s as [|c s IH]; [done|]. simpl. intros [Hc Hs]%andb_true_iff.
  apply negb_true_iff in Hc. by rewrite lower_char_fixed, IH.
Qed.

Lemma lower_idem s : lower (lower s) = lower s.
Proof. apply lower_fixed, lower_no_upper. Qed.

Lemma lower_truthy s : str_truthy (lower s) = str_truthy s.
Proof. by destruct s. Qed.

End TextFacts.

(** ** Addresses *)

Lemma norm_addr_fixed (s : string) :
  Text.no_char Text.is_space s = true → Text.no_char Text.is_upper s = true →
  _norm_addr (Some s) = s.
Proof.
  intros Hs Hu. unfold _norm_addr. simpl.
  by rewrite TextFacts.remove_spaces_fixed, TextFacts.lower_fixed.
Qed.

Lemma norm_addr_shape (x : option string) :
  Text.no_char Text.is_space (_norm_addr x) = true
  ∧ Text.no_char Text.is_upper (_norm_addr x) = true.
Proof.
  unfold _norm_addr. split.
  - by rewrite TextFacts.lower_no_space, TextFacts.remove_spaces_no_space.
  - apply TextFacts.lower_no_upper.
Qed.

(** X15. On ASCII addresses, [_norm_addr] gives a string without
    whitespace and without upper-case letters, the empty string for
    [None]; it leaves such a string as it is, so that normalising twice is
    normalising once, and it works piece by piece, so that whitespace
    anywhere in an address and the case of its letters make no
    difference. *)
Theorem norm_addr_normal (x : option string) :
  is_ascii (default "" x) = true →
  Text.no_char Text.is_space (_norm_addr x) = true
  ∧ Text.no_char Text.is_upper (_norm_addr x) = true
  ∧ _norm_addr (Some (_norm_addr x)) = _norm_addr x
  ∧ _norm_addr None = ""
  ∧ (∀ s t, is_ascii s = true → is_ascii t = true →
       _norm_addr (Some (s +:+ t)) = _norm_addr (Some s) +:+ _norm_addr (Some t))
  ∧ (∀ s t u, is_ascii s = true → is_ascii t = true → is_ascii u = true →
       Text.no_char (λ c, negb (Text.is_space c)) t = true →
       _norm_addr (Some (s +:+ t +:+ u)) = _norm_addr (Some (s +:+ u)))
  ∧ (∀ s, is_ascii s = true → _norm_addr (Some (Text.lower s)) = _norm_addr (Some s)).
Proof.
  intros _. destruct (norm_addr_shape x) as [Hs Hu].
  split; [done|]. split; [done|]. split; [by apply norm_addr_fixed|].
  split; [done|].
  assert (∀ s t, _norm_addr (Some (s +:+ t)) = _norm_addr (Some s) +:+ _norm_addr (Some t))
    as Happ.
  { intros s t. unfold _norm_addr. simpl.
    by rewrite TextFacts.remove_spaces_app, TextFacts.lower_app. }
  split; [by intros s t _ _|]. split.
  - intros s t u _ _ _ Ht. rewrite !Happ.
    assert (_norm_addr (Some t) = "") as ->; [|done].
    unfold _norm_addr. simpl. induction t as [|c t IH]; [done|]. simpl in *.
    apply andb_true_iff in Ht as [Hc Ht]. apply negb_true_iff, negb_false_iff in Hc.
    rewrite Hc. by apply IH.
  - intros s _. unfold _norm_addr. simpl. induction s as [|c s IH]; [done|]. simpl.
    rewrite TextFacts.lower_char_space. destruct (Text.is_space c); [done|]. simpl.
    by rewrite TextFacts.lower_char_idem, IH.
Qed.




Lemma run_dedup_addrs_from_spec lst : ∀ s,
  run_dedup_addrs_from s lst `sublist_of` lst
  ∧ NoDup (Text.lower <$> run_dedup_addrs_from s lst)
  ∧ (∀ b, b ∈ run_dedup_addrs_from s lst → Text.lower b ∉ s)
  ∧ (∀ a, a ∈ lst → Text.lower a ∉ s →
       ∃ b, b ∈ run_dedup_addrs_from s lst ∧ Text.lower b = Text.lower a).
Proof.
  induction lst as [|a lst IH]; intros s; simpl.
  - split; [done|]. split; [constructor|]. split; intros ? H; by apply elem_of_nil in H.
  - case_bool_decide as Hin.
    + destruct (IH s) as (Hsub & Hnd & Hout & Hcov).
      split; [by apply sublist_cons|]. split; [done|]. split; [done|].
      intros a' [->|Ha']%elem_of_cons Hns; [done|]. by apply Hcov.
    + destruct (IH (s ∪ {[Text.lower a]})) as (Hsub & Hnd & Hout & Hcov).
      split; [by apply sublist_skip|]. split; [|split].
      * cbn [fmap list_fmap]. constructor; [|done].
        intros (b & Hb & Hin')%list_elem_of_fmap. apply Hout in Hin'. set_solver.
      * intros b [->|Hb]%elem_of_cons; [done|]. apply Hout in Hb. set_solver.
      * intros a' Ha' Hns. setoid_rewrite elem_of_cons.
        destruct (decide (Text.lower a' = Text.lower a)) as [Heq|Hne]; [by eauto|].
        apply elem_of_cons in Ha' as [->|Ha']; [done|].
        destruct (Hcov a' Ha') as (b & Hb & Hlb); [set_solver|]. eauto.
Qed.

Lemma dedup_addrs_from_run lst : ∀ s,
  Forall (λ a, a ≠ "" ∧ Text.no_char Text.is_space a = true) lst →
  dedup_addrs_from s (Some <$> lst) = Text.lower <$> run_dedup_addrs_from s lst.
Proof.
  induction lst as [|a lst IH]; intros s Hl; [done|].
  apply Forall_cons in Hl as [[Hne Hsp] Hl].
  cbn [fmap list_fmap dedup_addrs_from run_dedup_addrs_from].
  assert (_norm_addr (Some a) = Text.lower a) as ->.
  { unfold _norm_addr. simpl. by rewrite TextFacts.remove_spaces_fixed. }
  rewrite TextFacts.lower_truthy.
  assert (str_truthy a = true) as -> by by destruct a.
  simpl. case_bool_decide; simpl; [by apply IH|]. cbn [fmap list_fmap].
  f_equal. by apply IH.
Qed.

(** X17. The [_dedup_addrs] that [run] calls keeps the addresses as they
    are written and in their order, the first of each group of addresses
    that are equal up to the case of letters: no two kept addresses are
    equal up to case, every address of the list has a kept one equal to it
    up to case, and the result is empty only for the empty list.  On
    addresses that are not empty and hold no whitespace, the module-level
    function keeps the same ones, in lower case.  The addresses are
    ASCII. *)
Theorem run_dedup_addrs_spec (lst : list string) :
  Forall (λ a, is_ascii a = true) lst →
  run_dedup_addrs lst `sublist_of` lst
  ∧ NoDup (Text.lower <$> run_dedup_addrs lst)
  ∧ (∀ a, a ∈ lst → ∃ b, b ∈ run_dedup_addrs lst ∧ Text.lower b = Text.lower a)
  ∧ (run_dedup_addrs lst = [] ↔ lst = [])
  ∧ head (run_dedup_addrs lst) = head lst
  ∧ (Forall (λ a, a ≠ "" ∧ Text.no_char Text.is_space a = true) lst →
     _dedup_addrs (Some <$> lst) = Text.lower <$> run_dedup_addrs lst).
Proof.
  intros _. unfold run_dedup_addrs.
  destruct (run_dedup_addrs_from_spec lst ∅) as (Hsub & Hnd & _ & Hcov).
  split; [done|]. split; [done|]. split; [|split; [|split]].
  - intros a Ha. apply Hcov; [done|]. set_solver.
  - split; [|by intros ->]. destruct lst as [|a lst]; [done|]. simpl.
    by rewrite bool_decide_eq_false_2 by set_solver.
  - destruct lst as [|a lst]; [done|]. simpl.
    by rewrite bool_decide_eq_false_2 by set_solver.
  - apply dedup_addrs_from_run.
Qed.

(** ** Trimming and splitting *)

Module SplitFacts.
Import Text.

Lemma lstrip_head s : head_space (lstrip s) = false.
Proof.
  induction s as [|c s IH]; [done|]. simpl.
  destruct (is_space c) eqn:Hc; [done|]. simpl. done.
Qed.

Lemma lstrip_fixed s : head_space s = false → lstrip s = s.
Proof. destruct s as [|c s]; [done|]. simpl. by intros ->. Qed.

Lemma lstrip_length s : (String.length (lstrip s) ≤ String.length s)%nat.
Proof.
  induction s as [|c s IH]; [done|]. simpl. destruct (is_space c); simpl; lia.
Qed.

Lemma last_space_cons c s : s ≠ "" → last_space (String c s) = last_space s.
Proof. by destruct s. Qed.

Lemma last_space_tail c s : last_space (String c s) = false → last_space s = false.
Proof. destruct s as [|c' s]; [done|]. by rewrite last_space_cons. Qed.

Lemma last_space_app s t : t ≠ "" → last_space (s +:+ t) = last_space t.
Proof.
  intros Ht. induction s as [|c s IH]; [done|]. rewrite StrFacts.app_cons.
  rewrite last_space_cons; [done|]. by destruct s, t.
Qed.

Lemma last_space_app_r s t : last_space (s +:+ t) = false → last_space t = false.
Proof.
  destruct t as [|c t]; [done|]. by rewrite last_space_app.
Qed.

Lemma last_space_snoc s c : last_space (s +:+ String c "") = is_space c.
Proof. by rewrite last_space_app. Qed.

Lemma lstrip_last s : last_space s = false → last_space (lstrip s) = false.
Proof.
  induction s as [|c s IH]; [done|]. cbn [lstrip]. intros Hs.
  destruct (is_space c); [|done]. by apply IH, (last_space_tail c).
Qed.

Lemma rstrip_last s : last_space (rstrip s) = false.
Proof.
  induction s as [|c s IH]; [done|]. simpl.
  destruct (rstrip s) as [|c' s'] eqn:Hr.
  - destruct (is_space c) eqn:Hc; [done|]. simpl. done.
  - by rewrite last_space_cons.
Qed.

Lemma rstrip_head s : head_space s = false → head_space (rstrip s) = false.
Proof.
  destruct s as [|c s]; [done|]. simpl. intros Hc.
  destruct (rstrip s); [by rewrite Hc|done].
Qed.

Lemma rstrip_fixed s : last_space s = false → rstrip s = s.
Proof.
  induction s as [|c s IH]; [done|]. intros Hs. simpl.
  destruct s as [|c' s].
  - simpl in *. by rewrite Hs.
  - rewrite IH by by rewrite last_space_cons in Hs. done.
Qed.

Lemma strip_trimmed s : trimmed (strip s) = true.
Proof.
  unfold trimmed, strip. by rewrite rstrip_head, rstrip_last by apply lstrip_head.
Qed.

Lemma strip_fixed s : trimmed s = true → strip s = s.
Proof.
  unfold trimmed, strip. intros [Hh Hl]%andb_true_iff.
  apply negb_true_iff in Hh, Hl. by rewrite lstrip_fixed, rstrip_fixed.
Qed.

Lemma lstrip_no_char p s : no_char p s = true → no_char p (lstrip s) = true.
Proof.
  induction s as [|c s IH]; [done|]. simpl. intros H.
  destruct (is_space c); [|done]. apply IH. by apply andb_true_iff in H as [_ ?].
Qed.

Lemma rstrip_no_char p s : no_char p s = true → no_char p (rstrip s) = true.
Proof.
  induction s as [|c s IH]; [done|]. simpl. intros [Hc Hs]%andb_true_iff.
  specialize (IH Hs). destruct (rstrip s) as [|c' s'].
  - destruct (is_space c); [done|]. simpl. by rewrite Hc.
  - simpl in *. by rewrite Hc, IH.
Qed.

Lemma strip_no_char p s : no_char p s = true → no_char p (strip s) = true.
Proof. intros H. by apply rstrip_no_char, lstrip_no_char. Qed.

Lemma char_split_no_char p s : ∀ cur,
  no_char p cur = true → Forall (λ x, no_char p x = true) (char_split p cur s).
Proof.
  induction s as [|c s IH]; intros cur Hcur; simpl.
  - by constructor.
  - destruct (p c) eqn:Hc.
    + constructor; [done|]. by apply IH.
    + apply IH. rewrite TextFacts.no_char_app, Hcur. simpl. by rewrite Hc.
Qed.

(** The pattern of the keywords at the head of a string. *)
Lemma sep_keywords_shorter s rest :
  sep_keywords s = Some rest → (String.length rest < String.length s)%nat.
Proof.
  unfold sep_keywords. pose proof (lstrip_length s) as Hl.
  destruct (lstrip s) as [|c r]; [done|]. destruct (is_comma_semi c); [|done].
  intros [= <-]. pose proof (lstrip_length r). simpl in *. lia.
Qed.

Lemma sep_keywords_space c s :
  is_space c = true → sep_keywords (String c s) = sep_keywords s.
Proof. intros Hc. unfold sep_keywords. simpl. by rewrite Hc. Qed.

Lemma sep_keywords_head c s :
  sep_keywords (String c s) = None → is_comma_semi c = false.
Proof.
  unfold sep_keywords. simpl. destruct (is_comma_semi c) eqn:Hc; [|done].
  by rewrite (TextFacts.comma_semi_not_space c Hc), Hc.
Qed.

Lemma sep_keywords_rest s rest :
  sep_keywords s = Some rest →
  head_space rest = false ∧ (last_space s = false → last_space rest = false)
  ∧ ∀ p, no_char p s = true → no_char p rest = true.
Proof.
  unfold sep_keywords.
  pose proof (lstrip_last s) as Hlast. pose proof (λ p, lstrip_no_char p s) as Hno.
  destruct (lstrip s) as [|c r]; [done|]. destruct (is_comma_semi c); [|done].
  intros [= <-]. split; [apply lstrip_head|]. split.
  - intros Hs. apply lstrip_last, (last_space_tail c). by apply Hlast.
  - intros p Hp. apply lstrip_no_char. specialize (Hno p Hp). simpl in Hno.
    by apply andb_true_iff in Hno as [_ ?].
Qed.

Lemma sep_keywords_none s :
  no_char is_comma_semi s = true → sep_keywords s = None.
Proof.
  intros Hs. unfold sep_keywords. apply (lstrip_no_char _ s) in Hs.
  destruct (lstrip s) as [|c r]; [done|]. simpl in Hs.
  apply andb_true_iff in Hs as [Hc _]. apply negb_true_iff in Hc. by rewrite Hc.
Qed.

(** Every piece of the split of the keywords. *)
Lemma re_split_keywords n : ∀ cur s,
  (String.length s < n)%nat →
  no_char is_comma_semi cur = true →
  head_space (cur +:+ s) = false →
  last_space (cur +:+ s) = false →
  (last_space cur = true → sep_keywords s = None) →
  Forall (λ x, no_char is_comma_semi x = true ∧ trimmed x = true)
    (re_split_from sep_keywords n cur s).
Proof.
  induction n as [|n IH]; intros cur s Hn Hno Hhead Hlast Hd; [lia|].
  assert (cur ≠ "" → head_space cur = false) as Hcur.
  { intros Hne. destruct cur; [done|]. by rewrite StrFacts.app_cons in Hhead. }
  assert (head_space cur = false) as Hcur' by (destruct cur; [done|by apply Hcur]).
  cbn [re_split_from]. destruct (sep_keywords s) as [rest|] eqn:Hsep.
  - destruct (sep_keywords_rest _ _ Hsep) as (Hrh & Hrl & _).
    constructor.
    + split; [done|]. unfold trimmed. rewrite Hcur'. simpl.
      destruct (last_space cur) eqn:E; [by specialize (Hd eq_refl)|done].
    + apply IH; try done.
      * apply sep_keywords_shorter in Hsep. lia.
      * apply Hrl. by apply (last_space_app_r cur).
  - destruct s as [|c s].
    + constructor; [|done]. rewrite StrFacts.app_nil_r in Hlast.
      split; [done|]. unfold trimmed. by rewrite Hcur', Hlast.
    + apply IH.
      * simpl in Hn. lia.
      * rewrite TextFacts.no_char_app, Hno. simpl.
        by rewrite (sep_keywords_head _ _ Hsep).
      * by rewrite StrFacts.app_assoc.
      * by rewrite StrFacts.app_assoc.
      * rewrite last_space_snoc. intros Hc. by rewrite <- (sep_keywords_space c s Hc).
Qed.

(** Without a comma or a semicolon there is one piece. *)
Lemma re_split_keywords_one n : ∀ cur s,
  no_char is_comma_semi s = true →
  re_split_from sep_keywords n cur s = [cur +:+ s].
Proof.
  induction n as [|n IH]; intros cur s Hs; [done|]. cbn [re_split_from].
  rewrite sep_keywords_none by done. destruct s as [|c s].
  - by rewrite StrFacts.app_nil_r.
  - simpl in Hs. apply andb_true_iff in Hs as [_ Hs].
    rewrite IH by done. by rewrite StrFacts.app_assoc.
Qed.

Lemma sep_categories_shorter s rest :
  sep_categories s = Some rest → (String.length rest < String.length s)%nat.
Proof.
  unfold sep_categories. destruct (sep_keywords s) as [r|] eqn:Hk.
  - intros [= <-]. by apply sep_keywords_shorter.
  - destruct s as [|c s]; [done|]. destruct (Ascii.eqb c "/"); [|done].
    intros [= <-]. simpl. lia.
Qed.

Lemma sep_categories_head c s :
  sep_categories (String c s) = None → is_cat_sep c = false.
Proof.
  unfold sep_categories, is_cat_sep. destruct (sep_keywords (String c s)) eqn:Hk; [done|].
  rewrite (sep_keywords_head _ _ Hk). by destruct (Ascii.eqb c "/").
Qed.

Lemma re_split_categories n : ∀ cur s,
  (String.length s < n)%nat →
  no_char is_cat_sep cur = true →
  Forall (λ x, no_char is_cat_sep x = true) (re_split_from sep_categories n cur s).
Proof.
  induction n as [|n IH]; intros cur s Hn Hno; [lia|]. cbn [re_split_from].
  destruct (sep_categories s) as [rest|] eqn:Hsep.
  - constructor; [done|]. apply IH; [|done].
    apply sep_categories_shorter in Hsep. lia.
  - destruct s as [|c s]; [by constructor|]. apply IH; [simpl in Hn; lia|].
    rewrite TextFacts.no_char_app, Hno. simpl. by rewrite (sep_categories_head _ _ Hsep).
Qed.

(** Without a slash the two patterns split alike. *)
Lemma re_split_no_slash n : ∀ cur s,
  has_slash s = false →
  re_split_from sep_categories n cur s = re_split_from sep_keywords n cur s.
Proof.
  induction n as [|n IH]; intros cur s Hs; [done|]. cbn [re_split_from].
  unfold sep_categories at 1. destruct (sep_keywords s) as [rest|] eqn:Hk.
  - f_equal. apply IH.
    destruct (sep_keywords_rest _ _ Hk) as (_ & _ & Hno).
    specialize (Hno (λ c, Ascii.eqb c "/")).
    assert (∀ t, no_char (λ c, Ascii.eqb c "/") t = negb (has_slash t)) as Hns.
    { induction t as [|c t IHt]; [done|]. simpl. rewrite IHt. by destruct (Ascii.eqb c "/"). }
    rewrite !Hns in Hno. rewrite Hs in Hno. specialize (Hno eq_refl).
    by apply negb_true_iff in Hno.
  - destruct s as [|c s]; [done|]. simpl in Hs.
    apply orb_false_iff in Hs as [Hc Hs]. rewrite Hc. by apply IH.
Qed.

Lemma strip_no_slash s : has_slash s = false → has_slash (strip s) = false.
Proof.
  assert (∀ t, no_char (λ c, Ascii.eqb c "/") t = negb (has_slash t)) as Hns.
  { induction t as [|c t IHt]; [done|]. simpl. rewrite IHt. by destruct (Ascii.eqb c "/"). }
  intros Hs. pose proof (strip_no_char (λ c, Ascii.eqb c "/") s) as H.
  rewrite !Hns, Hs in H. specialize (H eq_refl). by apply negb_true_iff in H.
Qed.

(** The pieces of a string hold the characters of the string only. *)
Lemma re_split_blank sep n : ∀ cur s (p : ascii → bool),
  (∀ t rest, sep t = Some rest → no_char p t = true → no_char p rest = true) →
  no_char p cur = true → no_char p s = true →
  Forall (λ x, no_char p x = true) (re_split_from sep n cur s).
Proof.
  induction n as [|n IH]; intros cur s p Hsep Hcur Hs.
  - constructor; [|done]. by rewrite TextFacts.no_char_app, Hcur, Hs.
  - cbn [re_split_from]. destruct (sep s) as [rest|] eqn:E.
    + constructor; [done|]. apply IH; [done|done|]. by apply (Hsep s).
    + destruct s as [|c s]; [by constructor|]. simpl in Hs.
      apply andb_true_iff in Hs as [Hc Hs]. apply IH; [done| |done].
      rewrite TextFacts.no_char_app, Hcur. simpl. by rewrite Hc.
Qed.

End SplitFacts.

Lemma filter_truthy_Forall (P : string → Prop) (l : list string) :
  Forall P l → Forall (λ x, x ≠ "" ∧ P x) (List.filter str_truthy l).
Proof.
  induction 1 as [|x l Hx _ IH]; simpl; [constructor|].
  destruct x as [|c x]; simpl; [done|]. by constructor.
Qed.

Lemma split_values_app sep (l1 l2 : list string) :
  split_values sep (l1 ++ l2) = split_values sep l1 ++ split_values sep l2.
Proof.
  induction l1 as [|v l1 IH]; [done|]. simpl.
  destruct (str_truthy v); [|done]. by rewrite IH, app_assoc.
Qed.

Lemma keywords_of_value (v : string) :
  Forall (λ k, k ≠ "" ∧ Text.no_char Text.is_comma_semi k = true
               ∧ Text.trimmed k = true)
    (List.filter str_truthy (Text.re_split Text.sep_keywords (Text.strip v))).
Proof.
  apply filter_truthy_Forall. unfold Text.re_split.
  pose proof (SplitFacts.strip_trimmed v) as Ht. unfold Text.trimmed in Ht.
  apply andb_true_iff in Ht as [Hh Hl]. apply negb_true_iff in Hh, Hl.
  apply SplitFacts.re_split_keywords; try done. lia.
Qed.

(** X18. [_split_keywords], on ASCII values: every keyword it returns is
    non-empty, begins and ends with a character that is not whitespace, and
    holds neither a comma nor a semicolon; the values are split one after
    the other; a value that is such a keyword already is returned as it
    is, and a value of whitespace, commas and semicolons alone gives
    nothing. *)
Theorem split_keywords_spec (values : list string) :
  Forall (λ v, is_ascii v = true) values →
  Forall (λ k, k ≠ "" ∧ Text.no_char Text.is_comma_semi k = true
               ∧ Text.trimmed k = true) (_split_keywords values)
  ∧ (∀ l1 l2, Forall (λ v, is_ascii v = true) (l1 ++ l2) →
       _split_keywords (l1 ++ l2) = _split_keywords l1 ++ _split_keywords l2)
  ∧ (∀ v, is_ascii v = true →
       v ≠ "" → Text.trimmed v = true → Text.no_char Text.is_comma_semi v = true →
       _split_keywords [v] = [v])
  ∧ (∀ v, is_ascii v = true →
       Text.no_char (λ c, negb (Text.is_blank c)) v = true → _split_keywords [v] = []).
Proof.
  intros _. split; [|split; [|split]].
  - unfold _split_keywords. induction values as [|v values IH]; [constructor|].
    simpl. destruct (str_truthy v); [|done]. apply Forall_app. split; [|done].
    apply keywords_of_value.
  - intros l1 l2 _. apply split_values_app.
  - intros v _ Hne Ht Hno. unfold _split_keywords. simpl.
    assert (str_truthy v = true) as Hv by by destruct v. rewrite Hv.
    rewrite SplitFacts.strip_fixed by done. unfold Text.re_split.
    rewrite SplitFacts.re_split_keywords_one by done.
    change ("" +:+ v) with v. cbn [List.filter]. by rewrite Hv.
  - intros v _ Hv. unfold _split_keywords. simpl.
    destruct (str_truthy v); [|done]. rewrite app_nil_r.
    pose proof (keywords_of_value v) as Hkw.
    assert (Forall (λ k, k ≠ "" ∧ Text.no_char (λ c, negb (Text.is_blank c)) k = true)
              (List.filter str_truthy (Text.re_split Text.sep_keywords (Text.strip v))))
      as Hbl.
    { apply filter_truthy_Forall. unfold Text.re_split.
      apply SplitFacts.re_split_blank; [|done|].
      - intros t rest Hsep Hp. by apply (SplitFacts.sep_keywords_rest t rest Hsep).
      - by apply SplitFacts.strip_no_char. }
    destruct (List.filter str_truthy _) as [|k l]; [done|]. exfalso.
    apply Forall_cons in Hkw as [(Hne & Hno & Ht) _].
    apply Forall_cons in Hbl as [(_ & Hb) _].
    destruct k as [|c k]; [done|]. simpl in Hno, Hb. unfold Text.trimmed in Ht. simpl in Ht.
    apply andb_true_iff in Hno as [Hc _]. apply andb_true_iff in Hb as [Hb _].
    apply andb_true_iff in Ht as [Hh _].
    unfold Text.is_blank in Hb. rewrite negb_involutive in Hb.
    apply negb_true_iff in Hc, Hh. by rewrite Hc, Hh in Hb.
Qed.

Lemma no_cat_sep (s : string) :
  Text.no_char Text.is_cat_sep s = true ↔
  Text.no_char Text.is_comma_semi s = true ∧ has_slash s = false.
Proof.
  induction s as [|c s IH]; [done|]. simpl. unfold Text.is_cat_sep at 1.
  rewrite !andb_true_iff, orb_false_iff, IH, !negb_true_iff, orb_false_iff. tauto.
Qed.

Lemma split_values_no_slash (values : list string) :
  Forall (λ v, has_slash v = false) values →
  _split_categories values = _split_keywords values.
Proof.
  unfold _split_categories, _split_keywords.
  induction 1 as [|v values Hv _ IH]; [done|]. simpl.
  destruct (str_truthy v); [|done]. rewrite IH. f_equal. f_equal.
  unfold Text.re_split. apply SplitFacts.re_split_no_slash.
  by apply SplitFacts.strip_no_slash.
Qed.

(** X19. [_split_categories], on ASCII values: every category it returns
    is non-empty and holds no comma, no semicolon and no slash; the values
    are split one after the other; on values without a slash the function
    is [_split_keywords], and a value that is non-empty, trimmed and
    without separator is returned as it is. *)
Theorem split_categories_spec (values : list string) :
  Forall (λ v, is_ascii v = true) values →
  Forall (λ k, k ≠ "" ∧ Text.no_char Text.is_cat_sep k = true)
    (_split_categories values)
  ∧ (∀ l1 l2, Forall (λ v, is_ascii v = true) (l1 ++ l2) →
       _split_categories (l1 ++ l2) = _split_categories l1 ++ _split_categories l2)
  ∧ (Forall (λ v, has_slash v = false) values →
     _split_categories values = _split_keywords values)
  ∧ (∀ v, is_ascii v = true →
       v ≠ "" → Text.trimmed v = true → Text.no_char Text.is_cat_sep v = true →
       _split_categories [v] = [v]).
Proof.
  intros _. split; [|split; [|split]].
  - unfold _split_categories. induction values as [|v values IH]; [constructor|].
    simpl. destruct (str_truthy v); [|done]. apply Forall_app. split; [|done].
    apply filter_truthy_Forall. unfold Text.re_split.
    apply SplitFacts.re_split_categories; [lia|done].
  - intros l1 l2 _. apply split_values_app.
  - apply split_values_no_slash.
  - intros v _ Hne Ht [Hno Hsl]%no_cat_sep.
    rewrite split_values_no_slash by (by constructor).
    unfold _split_keywords. simpl.
    assert (str_truthy v = true) as Hv by by destruct v. rewrite Hv.
    rewrite SplitFacts.strip_fixed by done. unfold Text.re_split.
    rewrite SplitFacts.re_split_keywords_one by done.
    change ("" +:+ v) with v. cbn [List.filter]. by rewrite Hv.
Qed.

(** ** The recipients of the mail *)

Lemma strip_blank (s : string) :
  Text.no_char (λ c, negb (Text.is_space c)) s = true → Text.strip s = "".
Proof.
  intros Hs. unfold Text.strip.
  assert (Text.lstrip s = "") as ->; [|done].
  induction s as [|c s IH]; [done|]. simpl in *.
  apply andb_true_iff in Hs as [Hc Hs]. rewrite negb_involutive in Hc.
  rewrite Hc. by apply IH.
Qed.

Lemma char_split_blank (s : string) : ∀ cur,
  Text.no_char (λ c, negb (Text.is_space c)) cur = true →
  Text.no_char (λ c, negb (Text.is_blank c)) s = true →
  Forall (λ x, Text.no_char (λ c, negb (Text.is_space c)) x = true)
    (Text.char_split Text.is_comma_semi cur s).
Proof.
  induction s as [|c s IH]; intros cur Hcur Hs; simpl; [by constructor|].
  simpl in Hs. apply andb_true_iff in Hs as [Hc Hs]. rewrite negb_involutive in Hc.
  destruct (Text.is_comma_semi c) eqn:Hsep.
  - constructor; [done|]. by apply IH.
  - apply IH; [|done]. rewrite TextFacts.no_char_app, Hcur. simpl.
    unfold Text.is_blank in Hc. rewrite Hsep, orb_false_r in Hc.
    by rewrite Hc.
Qed.

(** X20. The recipients, [EMAIL_TO] and the addresses of the file being
    ASCII: when [EMAIL_TO] is not empty the list of the
    configuration file plays no part and every recipient is a non-empty
    piece of [EMAIL_TO] without whitespace at its ends and without comma or
    semicolon; an [EMAIL_TO] of whitespace, commas and semicolons alone
    gives no recipient, whatever the file says; when [EMAIL_TO] is empty
    the recipients are those of the file.  The deduplication of line 446
    keeps some of them in their order, and keeps one when there is one. *)
Theorem recipients_spec (env_to : string) (cfg_to : list string) :
  is_ascii env_to = true → Forall (λ a, is_ascii a = true) cfg_to →
  (env_to = "" → recipients env_to cfg_to = cfg_to)
  ∧ (env_to ≠ "" →
     Forall (λ r, r ≠ "" ∧ (Text.trimmed r = true
                  ∧ Text.no_char Text.is_comma_semi r = true))
       (recipients env_to cfg_to)
     ∧ ∀ cfg_to', Forall (λ a, is_ascii a = true) cfg_to' →
         recipients env_to cfg_to' = recipients env_to cfg_to)
  ∧ (env_to ≠ "" → Text.no_char (λ c, negb (Text.is_blank c)) env_to = true →
     recipients env_to cfg_to = [])
  ∧ run_to_list env_to cfg_to `sublist_of` recipients env_to cfg_to
  ∧ (run_to_list env_to cfg_to = [] ↔ recipients env_to cfg_to = []).
Proof.
  intros _ _. split; [by intros ->|]. split; [|split; [|split]].
  - intros Hne. unfold recipients.
    assert (str_truthy env_to = true) as -> by by destruct env_to.
    split; [|done]. apply filter_truthy_Forall, Forall_fmap.
    eapply Forall_impl; [by apply (SplitFacts.char_split_no_char Text.is_comma_semi)|].
    intros x Hx. simpl. split; [apply SplitFacts.strip_trimmed|].
    by apply SplitFacts.strip_no_char.
  - intros Hne Hblank. unfold recipients.
    assert (str_truthy env_to = true) as -> by by destruct env_to.
    pose proof (char_split_blank env_to "" eq_refl Hblank) as Hall.
    induction Hall as [|x l Hx _ IH]; [done|]. cbn [fmap list_fmap List.filter].
    by rewrite strip_blank.
  - unfold run_to_list, run_dedup_addrs.
    by destruct (run_dedup_addrs_from_spec (recipients env_to cfg_to) ∅) as [? _].
  - unfold run_to_list, run_dedup_addrs.
    split; [|by intros ->]. destruct (recipients env_to cfg_to) as [|a l]; [done|].
    simpl. by rewrite bool_decide_eq_false_2 by set_solver.
Qed.

(** ** When the state is written, and when a run ends normally *)

(** X21. Publishing suffices: when [unique_only] is on, the state path is
    set, items were fetched, the site was generated or the mail was sent,
    and the file can be written, the run reports the update and the state
    file becomes an ["ids"] document of the loaded seen-set together with
    the identifiers of the items; no other state file changes.  The loaded
    seen-set is what the file held, whether as an ["ids"] document, a bare
    list or a map, when the state path can name a file, and is empty when
    it cannot. *)
Theorem commit_when_published fromisoformat cfg env w rep :
  (run fromisoformat cfg env w).2 = Returned rep →
  cfg_unique_only cfg = true → str_truthy (cfg_state_path cfg) = true →
  items rep ≠ [] → site_generated rep = true ∨ email_sent rep = true →
  env_state_write env = WriteOk →
  let file := Path.norm (cfg_state_path cfg) in
  let all := run_seen_ids cfg w ∪ item_ids (items rep) in
  state_files (run fromisoformat cfg env w).1 !! file = Some (DocIds (sorted_ids all))
  ∧ (∀ path, path ≠ file →
       state_files (run fromisoformat cfg env w).1 !! path = state_files w !! path)
  ∧ StateUpdated (size all) (cfg_state_path cfg) ∈ notices rep
  ∧ decode (DocIds (sorted_ids all)) = all
  ∧ run_seen_ids cfg w
    = if Path.names_file (cfg_state_path cfg) then stored_ids (state_files w) file
      else ∅.
Proof.
  intros Hrun Huo Hpath Hits Hpub Hwrite. cbv zeta. revert Hrun. rewrite run_unfold.
  destruct (cutoff_overflows _ _); [done|].
  destruct (run_fetch fromisoformat cfg env w) as [[its reqs]|]; [|done].
  destruct (env_render env) as [jp|]; [|done]. cbn zeta. cbn [fst snd].
  intros [= <-]. cbn [notices items site_generated email_sent] in *.
  assert (is_empty its = false) as Hne by by destruct its.
  assert (cfg_site_requested cfg && env_site_ok env || (deliver cfg env jp w).1.2 = true)
    as Hpub' by by destruct Hpub as [-> | ->]; [|apply orb_true_r].
  rewrite commit_state_files, deliver_state_files, Huo, Hpath, Hne, Hpub', Hwrite.
  simpl. rewrite commit_ids_spec. split; [by rewrite lookup_insert_eq|].
  split; [by intros path Hp; rewrite lookup_insert_ne|]. split; [|split].
  - apply list_elem_of_further. rewrite !elem_of_app. do 2 right. unfold commit.
    rewrite Huo, Hpath, Hne, Hpub', Hwrite. simpl.
    rewrite commit_ids_spec. apply list_elem_of_here.
  - apply list_to_set_sorted_ids.
  - unfold run_seen_ids, load_seen. by rewrite Huo, Hpath.
Qed.

Lemma page_loop_done fromisoformat feed unique_only seen_ids cutoff want_new n : ∀ s,
  (∀ k st mx, feed k st mx ≠ Raised) →
  ∃ s', page_loop fromisoformat feed unique_only seen_ids cutoff want_new n s = Done s'.
Proof.
  induction n as [|n IH]; intros s Hall; [by eexists|].
  rewrite page_loop_S.
  pose proof (Hall (length (calls s)) (start s) (page_size want_new)) as Hfeed.
  destruct (feed _ _ _) as [page|]; [|done].
  destruct (page_body _ _ _ _ _ _ _).2; [apply IH; intros; apply Hall|by eexists].
Qed.

(** X22. When the feed and the stages that write the artifacts do not
    raise, a run aborts in one case only, before it has done anything: the
    computation of the cutoff overflows (line 208); otherwise it ends
    normally, and a failure of the site stage, of the mail stage or of the
    writing of the state is reported and stops nothing. *)
Theorem run_completes fromisoformat cfg env w :
  (∀ k st mx, env_feed env k st mx ≠ Raised) → env_render env ≠ Raised →
  (cutoff_overflows (env_now env) (cfg_since_days cfg) = true
   ∧ run fromisoformat cfg env w = (w, Raised))
  ∨ (cutoff_overflows (env_now env) (cfg_since_days cfg) = false
     ∧ ∃ rep, (run fromisoformat cfg env w).2 = Returned rep
        ∧ (env_site_ok env = false →
           site_generated rep = false ∧ SiteFailed ∈ notices rep)
        ∧ (cfg_email_enabled cfg = true → SENT_EMAIL w = false →
           env_mkdir_ok env = false ∨ env_delivery env = SendRaises →
           flag_path (cfg_out_dir cfg)
             (Stamp.run_stamp (env_today env)
                (match env_render env with Returned jp => jp | Raised => "" end))
             ∉ flag_files w →
           email_sent rep = false ∧ EmailFailed ∈ notices rep)
        ∧ (env_state_write env ≠ WriteOk → cfg_unique_only cfg = true →
           str_truthy (cfg_state_path cfg) = true → items rep ≠ [] →
           site_generated rep = true ∨ email_sent rep = true →
           StateSaveFailed ∈ notices rep)).
Proof.
  intros Hfeed Hrender. rewrite run_unfold.
  destruct (cutoff_overflows _ _); [by left|right]. split; [done|].
  unfold run_fetch, fetch_items, paginate.
  destruct (page_loop_done fromisoformat (env_feed env) (cfg_unique_only cfg)
              (run_seen_ids cfg w) (run_cutoff cfg env) (run_want_new cfg)
              max_pages (mkPag [] false 0 []) Hfeed) as [s ->].
  assert (∃ its reqs,
    match collected s with
    | [] =>
        if cfg_fallback_when_empty cfg
        then match env_feed env (length (calls s)) 0 (run_want_new cfg) with
             | Returned page => Returned (page, calls s ++ [(0, run_want_new cfg)])
             | Raised => Raised
             end
        else Returned ([], calls s)
    | _ :: _ => Returned (collected s, calls s)
    end = Returned (its, reqs)) as (its & reqs & ->).
  { destruct (collected s); [|by eauto]. destruct (cfg_fallback_when_empty cfg); [|by eauto].
    specialize (Hfeed (length (calls s)) 0 (run_want_new cfg)).
    destruct (env_feed env _ _ _); [by eauto|done]. }
  destruct (env_render env) as [jp|]; [|done]. cbn zeta.
  eexists. split; [done|]. cbn [items site_generated email_sent notices].
  split; [|split].
  - intros ->. rewrite andb_false_r. split; [done|].
    rewrite !elem_of_app. right. left. apply list_elem_of_here.
  - intros Hen Hs Hd Hflag. unfold deliver. rewrite Hen, Hs.
    destruct (env_mkdir_ok env).
    + destruct Hd as [|Hd]; [done|]. rewrite Hd. simpl.
      rewrite bool_decide_eq_false_2 by done. simpl. split; [done|].
      rewrite !elem_of_app. do 2 right. apply list_elem_of_here.
    + simpl. split; [done|].
      rewrite !elem_of_app. do 2 right. apply list_elem_of_here.
  - intros Hwrite Huo Hpath Hits Hpub.
    assert (is_empty its = false) as Hne by by destruct its.
    assert (cfg_site_requested cfg && env_site_ok env || (deliver cfg env jp w).1.2 = true)
      as Hpub' by by destruct Hpub as [-> | ->]; [|apply orb_true_r].
    rewrite !elem_of_app. do 3 right. unfold commit.
    rewrite Huo, Hpath, Hne, Hpub'. simpl.
    destruct (env_state_write env); [done| |]; apply list_elem_of_here.
Qed.

(** * Further worked cases *)

Import Sample2.

(** X1, worked: without dedup and cutoff, two wanted: the first two items
    of the page. *)
Lemma paginate_selection_witness :
  collected (pag_state (paginate iso (feed_always full_page) false ∅ None 2))
  = take 2 (concat (responses (feed_always full_page) 0
      (calls (pag_state (paginate iso (feed_always full_page) false ∅ None 2))))).
Proof.
  destruct (paginate_selection iso (feed_always full_page) false ∅ None 2)
    as (_ & _ & H).
  apply H; reflexivity.
Defined.

(** X2, worked: the run with the fallback makes one page request and the
    fallback request. *)
Lemma run_request_budget_witness :
  ∃ k : nat,
    (1 ≤ k ≤ 20)%nat
    ∧ ([(0, 25); (0, 10)] = next_requests (run_want_new cfg_dedup_fallback) 0 k
       ∨ [(0, 25); (0, 10)] = next_requests (run_want_new cfg_dedup_fallback) 0 k
                                ++ [(0, run_want_new cfg_dedup_fallback)])
    ∧ (length [(0, 25); (0, 10)] ≤ 21)%nat
    ∧ Forall (λ q : Request, 0 ≤ q.1 ≤ 3800 ∧ 25 ≤ q.2 ≤ 200)
        (next_requests (run_want_new cfg_dedup_fallback) 0 k).
Proof.
  apply (run_request_budget iso cfg_dedup_fallback env_only_a1 world_a1
           (mkReport [a1] [(0, 25); (0, 10)] true false
              [Fetched 1; StateUpdated 1 ".state/seen.json"])).
  vm_compute. reflexivity.
Defined.

(** X3, worked: an item updated "yesterday" is not older than now. *)
Lemma unknown_time_kept_witness :
  before_cutoff iso (Some now) odd_time = false.
Proof.
  destruct (unknown_time_kept iso odd_time) as [H _].
  - right. right. exists "yesterday". split; vm_compute; reflexivity.
  - left. vm_compute. reflexivity.
  - apply H.
Defined.

(** X4, worked: with [since_days = 0] the parser plays no part. *)
Lemma no_window_no_cutoff_witness :
  paginate iso (feed_of [[n1; n2; n3]]) false ∅ (cutoff_of now 0) 10
  = paginate (λ _, None) (feed_of [[n1; n2; n3]]) false ∅ (cutoff_of now 0) 10.
Proof.
  destruct (no_window_no_cutoff iso (λ _, None) (feed_of [[n1; n2; n3]]) false ∅ 10 now 0)
    as (_ & _ & H & _); [lia|exact H].
Defined.


(** X6, worked: the notice of the scenario. *)
Lemma state_update_notice_witness :
  ".state/seen.json" = cfg_state_path cfg_dedup
  ∧ (true = true ∨ false = true)
  ∧ ∃ ids,
      state_files (run iso cfg_dedup env_dedup world_dedup).1
        !! Path.norm ".state/seen.json" = Some (DocIds ids)
      ∧ Sorted str_le ids ∧ NoDup ids ∧ length ids = 3%nat
      ∧ list_to_set ids = run_seen_ids cfg_dedup world_dedup ∪ item_ids [a3].
Proof.
  apply (state_update_notice iso cfg_dedup env_dedup world_dedup
           (mkReport [a3] [(0, 25)] true false
              [Fetched 1; StateUpdated 3 ".state/seen.json"]) 3 ".state/seen.json").
  - vm_compute. reflexivity.
  - apply list_elem_of_further, list_elem_of_here.
Defined.

Example written_document :
  state_files (run iso cfg_dedup env_dedup world_dedup).1 !! ".state/seen.json"
  = Some (DocIds ["a1"; "a2"; "a3"]).
Proof. by vm_compute. Qed.

(** X7, worked: the items in the other order. *)
Lemma commit_order_independent_witness :
  sorted_ids (commit_ids {["a0"]} [a2; a1]) = sorted_ids (commit_ids {["a0"]} [a1; a2]).
Proof.
  destruct (commit_order_independent {["a0"]} [a2; a1] [a1; a2]) as (H & _).
  - apply perm_swap.
  - exact H.
Defined.

(** X8, worked: nothing stands in the way, the stage sends. *)
Lemma deliver_sends_iff_witness :
  (deliver cfg_mail env_mail json_path world_empty).1.2 = true.
Proof.
  pose proof (deliver_sends_iff cfg_mail env_mail json_path world_empty) as H.
  cbv zeta in H. destruct H as (H & _). apply H.
  split; [reflexivity|]. split; [reflexivity|]. split; [reflexivity|].
  split; [apply not_elem_of_empty|reflexivity].
Defined.

(** X9, worked: the flag file of the day before does not stop the mail. *)
Lemma other_snapshots_do_not_block_witness :
  (deliver cfg_mail env_mail json_path world_other_flag).1.2 = true.
Proof.
  assert (∀ f, f ∈ flag_files world_other_flag →
            ∃ stamp, has_slash stamp = false
                     ∧ f = flag_path (cfg_out_dir cfg_mail) stamp
                     ∧ stamp ≠ Stamp.run_stamp (env_today env_mail) json_path) as Hflags.
  { intros f Hf.
    change (f ∈ ({[ flag_path "outputs" "20240109_000000" ]} : gset string)) in Hf.
    apply elem_of_singleton in Hf. exists "20240109_000000".
    split; [reflexivity|]. split; [exact Hf|]. vm_compute. discriminate. }
  destruct (other_snapshots_do_not_block cfg_mail env_mail json_path world_other_flag
              eq_refl eq_refl eq_refl eq_refl eq_refl Hflags) as (_ & _ & H & _).
  exact H.
Defined.

(** X10, worked: two runs in one process. *)
Lemma one_mail_per_process_witness :
  (sends (run_seq iso two_runs_one_process world_empty).2 ≤ 1)%nat.
Proof.
  destruct (one_mail_per_process iso two_runs_one_process world_empty) as [H _].
  - repeat constructor.
  - exact H.
Defined.

Example one_mail_sent :
  sent <$> (run_seq iso two_runs_one_process world_empty).2 = [true; false]
  ∧ sent <$> (run_seq iso two_runs_two_processes world_empty).2 = [true; false].
Proof. by vm_compute. Qed.

(** X11, worked: two runs of one snapshot in two processes. *)
Lemma one_mail_per_snapshot_witness :
  (sends_for flag_today two_runs_two_processes
     (run_seq iso two_runs_two_processes world_empty).2 ≤ 1)%nat.
Proof.
  destruct (one_mail_per_snapshot iso two_runs_two_processes world_empty flag_today)
    as [H _].
  - repeat constructor.
  - exact H.
Defined.

(** X13, worked: the artifact of the sample runs. *)
Lemma stamp_of_saved_name_witness :
  Stamp.run_stamp "20240305"
    ("outputs" +:+ "/" +:+ "arxiv_" +:+ "20240110" +:+ "_" +:+ "000000" +:+ ".json")
  = "20240110" +:+ "_" +:+ "000000".
Proof.
  destruct (stamp_of_saved_name "20240305" "outputs" "20240110" "000000" ".json"
              eq_refl eq_refl eq_refl eq_refl eq_refl eq_refl) as (H & _).
  exact H.
Defined.

(** X14, worked: [--no-email] against [--email] and a file that enables
    mail. *)
Lemma mail_switch_witness :
  sent (run iso cfg_nothing env_mail world_a1).2 = false
  ∧ flag_files (run iso cfg_nothing env_mail world_a1).1 = flag_files world_a1.
Proof.
  destruct (mail_switch iso cfg_nothing env_mail world_a1 (Some true) (Some true) true)
    as (_ & H1 & H2 & _).
  - reflexivity.
  - left. reflexivity.
  - split; [exact H1|exact H2].
Defined.

(** X15, worked: blanks inside an address. *)
Lemma norm_addr_normal_witness :
  _norm_addr (Some (" A" +:+ "   " +:+ "b@X.org")) = _norm_addr (Some (" A" +:+ "b@X.org")).
Proof.
  destruct (norm_addr_normal None) as (_ & _ & _ & _ & _ & H & _).
  - reflexivity.
  - apply H; reflexivity.
Defined.

Example norm_addr_example : _norm_addr (Some " A   b@X.org") = "ab@x.org".
Proof. by vm_compute. Qed.

(** X17, worked: three addresses, two of them equal up to case. *)
Lemma run_dedup_addrs_spec_witness :
  _dedup_addrs (Some <$> addresses) = Text.lower <$> run_dedup_addrs addresses.
Proof.
  destruct (run_dedup_addrs_spec addresses) as (_ & _ & _ & _ & _ & H).
  - repeat constructor.
  - apply H. repeat constructor; discriminate.
Defined.

Example dedup_examples :
  run_dedup_addrs addresses = ["A@x.org"; "b@y.org"]
  ∧ _dedup_addrs (Some <$> addresses) = ["a@x.org"; "b@y.org"]
  ∧ run_dedup_addrs ["a @x.org"; "a@x.org"] = ["a @x.org"; "a@x.org"]
  ∧ _dedup_addrs [Some "a @x.org"; None; Some "a@x.org"; Some "  "] = ["a@x.org"].
Proof. by vm_compute. Qed.

(** X18, worked: a keyword of several words. *)
Lemma split_keywords_spec_witness :
  _split_keywords ["graph neural network"] = ["graph neural network"].
Proof.
  destruct (split_keywords_spec []) as (_ & _ & H & _).
  - constructor.
  - apply H; [reflexivity|discriminate|reflexivity|reflexivity].
Defined.

Example split_examples :
  _split_keywords ["  diffusion ,  video generation;; "; ""; "3D"]
  = ["diffusion"; "video generation"; "3D"]
  ∧ _split_categories ["cs.CV, cs.AI"; "stat.ML/cs.LG"]
    = ["cs.CV"; "cs.AI"; "stat.ML"; "cs.LG"]
  ∧ _split_categories ["cs.CV / cs.AI"] = ["cs.CV "; " cs.AI"].
Proof. by vm_compute. Qed.

(** X19, worked: categories without a slash. *)
Lemma split_categories_spec_witness :
  _split_categories ["cs.CV, cs.AI"; "stat.ML"] = _split_keywords ["cs.CV, cs.AI"; "stat.ML"].
Proof.
  destruct (split_categories_spec ["cs.CV, cs.AI"; "stat.ML"]) as (_ & _ & H & _).
  - repeat constructor.
  - apply H. repeat constructor.
Defined.

(** X20, worked: an [EMAIL_TO] of separators alone silences a file that has
    a recipient. *)
Lemma recipients_spec_witness :
  recipients " ; , " ["a@x.org"] = []
  ∧ recipients "" ["a@x.org"] = ["a@x.org"].
Proof.
  destruct (recipients_spec " ; , " ["a@x.org"]) as (_ & _ & H & _);
    [reflexivity|repeat constructor|].
  destruct (recipients_spec "" ["a@x.org"]) as (H' & _);
    [reflexivity|repeat constructor|].
  split; [apply H; [discriminate|reflexivity]|apply H'; reflexivity].
Defined.

Example recipients_example :
  recipients " a@x.org ;b@y.org,, A@X.org " [] = ["a@x.org"; "b@y.org"; "A@X.org"]
  ∧ run_to_list " a@x.org ;b@y.org,, A@X.org " [] = ["a@x.org"; "b@y.org"].
Proof. by vm_compute. Qed.

(** X12, worked: two runs in two processes keep what the state file
    holds. *)
Lemma run_seq_monotone_witness :
  stored_ids (state_files world_a1) ".state/seen.json"
    ⊆ stored_ids (state_files (run_seq iso two_runs_two_processes world_a1).1)
        ".state/seen.json".
Proof.
  destruct (run_seq_monotone iso two_runs_two_processes world_a1) as (H & _).
  apply H. repeat constructor; discriminate.
Defined.


(** X21, worked: the state file after the scenario of the seen-set. *)
Lemma commit_when_published_witness :
  let all := run_seen_ids cfg_dedup world_dedup ∪ item_ids [a3] in
  state_files (run iso cfg_dedup env_dedup world_dedup).1
    !! Path.norm (cfg_state_path cfg_dedup) = Some (DocIds (sorted_ids all))
  ∧ sorted_ids all = ["a1"; "a2"; "a3"].
Proof.
  destruct (commit_when_published iso cfg_dedup env_dedup world_dedup
              (mkReport [a3] [(0, 25)] true false
                 [Fetched 1; StateUpdated 3 ".state/seen.json"]))
    as (H & _).
  - vm_compute. reflexivity.
  - reflexivity.
  - reflexivity.
  - discriminate.
  - left. reflexivity.
  - reflexivity.
  - split; [exact H|]. vm_compute. reflexivity.
Defined.

(** X22, worked: the site stage and the send both fail, and the run ends
    with a report that says so. *)
Lemma run_completes_witness :
  ∃ rep, (run iso cfg_both env_failing world_empty).2 = Returned rep
    ∧ (site_generated rep = false ∧ SiteFailed ∈ notices rep)
    ∧ (email_sent rep = false ∧ EmailFailed ∈ notices rep).
Proof.
  destruct (run_completes iso cfg_both env_failing world_empty)
    as [[Hover _]|(_ & rep & Hrun & Hsite & Hmail & _)].
  - intros k st mx. discriminate.
  - discriminate.
  - discriminate Hover.
  - exists rep. split; [exact Hrun|]. split.
    + apply Hsite. reflexivity.
    + apply Hmail; [reflexivity|reflexivity|right; reflexivity|].
      apply not_elem_of_empty.
Defined.
